(** * J-Docu-Chat frontend: a shallow embedding of the client code

    The development follows the layout of [src/frontend/src]:
    - [JS]            the string and JSON primitives of the platform
    - [Api]           [utils/api.js] ([sendChatMessage], the upload response)
    - [Dashboard]     [pages/Dashboard.jsx] (what it reads of an upload)
    - [UseChat]       [hooks/useChat.js]
    - [ChatWindow]    [components/ChatWindow.jsx]
    - [FileDropzone]  [components/FileDropzone.jsx]
    - [UseTypewriter] [hooks/useTypewriter.js]
    - [MessageBubble] [components/MessageBubble.jsx]
    - [Splitter]      the backend text splitter, taken from the design
                      document because its code is not part of the tree
    - [Wire], [ChatStream], [Examples]
                      server-sent events on the wire, the frames of a
                      chat answer, and concrete inputs.

    JavaScript strings are modelled as sequences of code units below 256
    (Rocq's [string]); the chunks of a response body are modelled by the
    text [TextDecoder] makes of them. An asynchronous function is
    modelled by what it has done once its promise settles, given what
    the server replies; callbacks passed to it are total functions on
    the caller's state. Logging and scrolling are left out, except for
    the [console.warn] of [sendChatMessage] and the toasts of
    [useChat]. *)

From Stdlib Require Import String Ascii List Bool Arith ZArith NArith QArith Lia.
From Stdlib Require Import DecimalString Qround Qminmax.
Import ListNotations.

Set Warnings "-register-all,-notation-for-abbreviation".
Close Scope Q_scope.
Open Scope string_scope.
Open Scope list_scope.

(* ================================================================== *)
(** * Part I: definitions                                              *)
(* ================================================================== *)

(** ** Platform primitives *)

Module JS.

(** White space removed by [String.prototype.trim], restricted to the
    code units below 256: TAB, LF, VT, FF, CR, SPACE and NBSP. *)
Definition is_whitespace (c : ascii) : bool :=
  let n := nat_of_ascii c in
  ((n =? 9) || (n =? 10) || (n =? 11) || (n =? 12) || (n =? 13)
   || (n =? 32) || (n =? 160))%nat.

Definition newline : ascii := ascii_of_nat 10.
Definition carriage_return : ascii := ascii_of_nat 13.

Definition is_newline (c : ascii) : bool := Ascii.eqb c newline.

Fixpoint trimStart (s : string) : string :=
  match s with
  | EmptyString => EmptyString
  | String c r => if is_whitespace c then trimStart r else s
  end.

Fixpoint trimEnd (s : string) : string :=
  match s with
  | EmptyString => EmptyString
  | String c r =>
      match trimEnd r with
      | EmptyString => if is_whitespace c then EmptyString
                       else String c EmptyString
      | r' => String c r'
      end
  end.

Definition trim (s : string) : string := trimEnd (trimStart s).

(** [s.startsWith(p)] *)
Definition startsWith (p s : string) : bool := String.prefix p s.

(** [s.slice(k)] for a non-negative [k]. *)
Fixpoint drop (k : nat) (s : string) : string :=
  match k, s with
  | O, _ => s
  | S _, EmptyString => EmptyString
  | S k', String _ r => drop k' r
  end.

(** [s.slice(0, k)] for a non-negative [k]. *)
Fixpoint take (k : nat) (s : string) : string :=
  match k, s with
  | O, _ => EmptyString
  | S _, EmptyString => EmptyString
  | S k', String c r => String c (take k' r)
  end.

(** [s.slice(i)] for any integer [i]: a negative index counts from the
    end of the string. *)
Definition slice (i : Z) (s : string) : string :=
  if (i <? 0)%Z
  then drop (Z.to_nat (Z.max (Z.of_nat (String.length s) + i) 0)) s
  else drop (Z.to_nat i) s.

(** [s.lastIndexOf(c)], [-1] when [c] does not occur. *)
Fixpoint lastIndexOf (c : ascii) (s : string) : Z :=
  match s with
  | EmptyString => (-1)%Z
  | String d r =>
      let i := lastIndexOf c r in
      if (0 <=? i)%Z then (i + 1)%Z
      else if Ascii.eqb d c then 0%Z else (-1)%Z
  end.

(** [toLowerCase] on code units below 256: A-Z, and the Latin-1
    capitals U+00C0..U+00DE except the multiplication sign U+00D7. *)
Definition lower_char (c : ascii) : ascii :=
  let n := nat_of_ascii c in
  if (((65 <=? n) && (n <=? 90))
      || ((192 <=? n) && (n <=? 222) && negb (n =? 215)))%nat
  then ascii_of_nat (n + 32) else c.

Fixpoint toLowerCase (s : string) : string :=
  match s with
  | EmptyString => EmptyString
  | String c r => String (lower_char c) (toLowerCase r)
  end.

(** [s.split('\n')]: the segments between line feeds; never empty. *)
Fixpoint split_newline (s : string) : list string :=
  match s with
  | EmptyString => [EmptyString]
  | String c r =>
      if is_newline c then EmptyString :: split_newline r
      else match split_newline r with
           | [] => [String c EmptyString]
           | l :: ls => String c l :: ls
           end
  end.

(** The complete lines of a buffer, and the unfinished line after
    them: [lines] and [buffer] after [lines.pop()]. *)
Definition complete_lines (s : string) : list string :=
  removelast (split_newline s).
Definition unfinished (s : string) : string :=
  last (split_newline s) "".

(** The concatenation of the pieces of a text. *)
Fixpoint glue (pieces : list string) : string :=
  match pieces with
  | [] => EmptyString
  | x :: r => x ++ glue r
  end.

(** A text without a line feed. *)
Fixpoint no_newline (s : string) : bool :=
  match s with
  | EmptyString => true
  | String c r => negb (is_newline c) && no_newline r
  end.

(** [Array.prototype.includes] on an array of strings. *)
Definition includes (l : list string) (x : string) : bool :=
  existsb (String.eqb x) l.

(** Values produced by [JSON.parse]. *)
Inductive json : Type :=
| JNull
| JBool (b : bool)
| JNum (q : Q)
| JStr (s : string)
| JArr (l : list json)
| JObj (members : list (string * json)).

(** The value of a JavaScript expression that may be [undefined]. *)
Definition value := option json.

(** Own property of an object literal: a later member of the same
    name overrides an earlier one. *)
Fixpoint member (k : string) (ms : list (string * json)) : value :=
  match ms with
  | [] => None
  | (k', v) :: r =>
      match member k r with
      | Some w => Some w
      | None => if String.eqb k k' then Some v else None
      end
  end.

(** [v.k] for [k] one of [type], [content]: these names are defined on
    no prototype, so every non-object gives [undefined]; reading a
    property of [null] throws a [TypeError], modelled by the outer
    [None]. *)
Definition prop (v : json) (k : string) : option value :=
  match v with
  | JNull => None
  | JObj ms => Some (member k ms)
  | _ => Some None
  end.

(** ToBoolean. *)
Definition truthy (v : value) : bool :=
  match v with
  | None => false
  | Some JNull => false
  | Some (JBool b) => b
  | Some (JNum q) => negb (Qeq_bool q 0)
  | Some (JStr s) => negb (String.eqb s "")
  | Some (JArr _) => true
  | Some (JObj _) => true
  end.

(** [v === 'lit'] for a string literal. *)
Definition strict_eq_str (v : value) (lit : string) : bool :=
  match v with
  | Some (JStr s) => String.eqb s lit
  | _ => false
  end.

(** [a || b] on strings: the empty string is falsy. *)
Definition or_else (a b : string) : string :=
  if String.eqb a "" then b else a.

(** [Date.now().toString()] for a clock reading [t]. *)
Definition Date_toString (t : Z) : string :=
  NilEmpty.string_of_int (Z.to_int t).

Fixpoint join_comma (l : list string) : string :=
  match l with
  | [] => ""
  | [x] => x
  | x :: r => x ++ "," ++ join_comma r
  end.

Section ToString.
(** [Number.prototype.toString] is a platform function; the model is
    parametric in it. *)
Variable Number_toString : Q -> string.

(** ToString, as applied by [str += v]. *)
Fixpoint ToString (v : json) : string :=
  match v with
  | JNull => "null"
  | JBool true => "true"
  | JBool false => "false"
  | JNum q => Number_toString q
  | JStr s => s
  | JArr l =>
      join_comma
        (map (fun e => match e with JNull => "" | _ => ToString e end) l)
  | JObj _ => "[object Object]"
  end.
End ToString.

End JS.

(** ** utils/api.js *)

Module Api.
Import JS.

(** How the body stream ends: [reader.read()] reports [done], or it
    rejects with an error carrying [message]. *)
Inductive ending : Type :=
| Eof
| ReadFails (message : string).

(** What the server (and the network) do with the POST issued by
    [sendChatMessage]. *)
Inductive Reply : Type :=
| FetchRejects (message : string)
    (* [fetch] or [response.json()] rejects with this message *)
| NotOk (detail : option string)
    (* [!response.ok]; [errorData.detail], when present *)
| NoBody
    (* [response.body?.getReader()] is undefined *)
| Body (reads : list string) (e : ending).
    (* the decoded text of the successive [reader.read()] results *)

(** The JSON body of the POST, together with the knowledge base of
    the URL. *)
Record Request : Type := {
  req_kbId : string;
  req_message : string;
  req_temperature : Q
}.

(** The state of the promise once it has settled. *)
Inductive Settled : Type :=
| Resolved
| Rejected (message : string).

(** The default value of the [temperature] parameter. *)
Definition default_temperature : Q := 7 # 10.

(** A parameter with a default: [undefined] is [None]. *)
Definition with_default (temperature : option Q) : Q :=
  match temperature with
  | Some t => t
  | None => default_temperature
  end.

Inductive Flow : Type := Continue | Return.

(** What the body of the inner [try] does with a parsed frame. *)
Inductive Frame : Type :=
| Ignore                  (* [continue], or no branch applies *)
| Throws                  (* an exception reaches the inner [catch] *)
| Finish                  (* [return] *)
| Chunk (content : json). (* [onChunk(parsed.content)] *)

Definition classify (parsed : json) : Frame :=
  match prop parsed "type" with
  | None => Throws
  | Some ty =>
      if strict_eq_str ty "start" then Ignore
      else if strict_eq_str ty "end" then Ignore
      else if strict_eq_str ty "error" then Throws
      else if strict_eq_str ty "done" then Finish
      else match prop parsed "content" with
           | Some (Some c) => if truthy (Some c) then Chunk c else Ignore
           | _ => Ignore
           end
  end.

Section SendChatMessage.
(** [JSON.parse]; [None] stands for the [SyntaxError] it throws. *)
Variable JSON_parse : string -> option json.
(** The caller's state, and what [onChunk] does to it. *)
Variable S : Type.
Variable onChunk : json -> S -> S.

(** The caller's state and the arguments of [console.warn]. *)
Record Run : Type := {
  caller : S;
  warnings : list string
}.

Definition warn (data : string) (r : Run) : Run :=
  {| caller := caller r; warnings := warnings r ++ [data] |}.

Definition call (c : json) (r : Run) : Run :=
  {| caller := onChunk c (caller r); warnings := warnings r |}.

(** One iteration of [for (const line of lines)]. *)
Definition process_line (line : string) (r : Run) : Flow * Run :=
  if startsWith "data: " line then
    let data := drop 6 line in
    if String.eqb (trim data) "" then (Continue, r)
    else
      match JSON_parse data with
      | None => (Continue, warn data r)
      | Some parsed =>
          match classify parsed with
          | Ignore => (Continue, r)
          | Throws => (Continue, warn data r)
          | Finish => (Return, r)
          | Chunk c => (Continue, call c r)
          end
      end
  else (Continue, r).

Fixpoint for_lines (lines : list string) (r : Run) : Flow * Run :=
  match lines with
  | [] => (Continue, r)
  | line :: rest =>
      match process_line line r with
      | (Return, r') => (Return, r')
      | (Continue, r') => for_lines rest r'
      end
  end.

(** [while (true)]: one iteration per [reader.read()]. *)
Fixpoint read_loop (reads : list string) (e : ending)
         (buffer : string) (r : Run) : Settled * Run :=
  match reads with
  | [] =>
      match e with
      | Eof => (Resolved, r)
      | ReadFails m => (Rejected (or_else m "Chat failed"), r)
      end
  | value :: rest =>
      let lines := split_newline (buffer ++ value) in
      let buffer' := last lines "" in
      match for_lines (removelast lines) r with
      | (Return, r') => (Resolved, r')
      | (Continue, r') => read_loop rest e buffer' r'
      end
  end.

Definition settle (reply : Reply) (r : Run) : Settled * Run :=
  match reply with
  | FetchRejects m => (Rejected (or_else m "Chat failed"), r)
  | NotOk detail =>
      let m := match detail with
               | Some d => or_else d "Chat request failed"
               | None => "Chat request failed"
               end in
      (Rejected (or_else m "Chat failed"), r)
  | NoBody => (Rejected (or_else "Streaming not supported" "Chat failed"), r)
  | Body reads e => read_loop reads e "" r
  end.

(** [sendChatMessage(kbId, message, temperature = 0.7, onChunk)]
    against a server: the request it posts, how the promise
    settles, and the caller's state afterwards. *)
Definition sendChatMessage (server : Request -> Reply)
           (kbId message : string) (temperature : option Q)
           (s : S) : Request * (Settled * Run) :=
  let request := {| req_kbId := kbId;
                    req_message := message;
                    req_temperature := with_default temperature |} in
  (request, settle (server request) {| caller := s; warnings := [] |}).

End SendChatMessage.

Arguments caller {S} _.
Arguments warnings {S} _.



(** The outcome of [api.post('/upload', ...)]. *)
Inductive UploadReply : Type :=
| UploadOk (data : json)
| UploadFails (detail : option string).

(** [Math.round(loaded * 100 / total)] for non-negative integers. *)
Definition percent (loaded total : N) : N :=
  ((2 * (loaded * 100) + total) / (2 * total))%N.

(** The calls of [onProgress] for the progress events of an upload:
    an event whose [total] is [0] is skipped. *)
Definition progress_calls (events : list (N * N)) : list N :=
  map (fun ev => percent (fst ev) (snd ev))
      (filter (fun ev => negb (N.eqb (snd ev) 0)) events).

(** [uploadFiles]: the data of the response, or the message of the
    error thrown. *)
Definition uploadFiles (reply : UploadReply) : string + json :=
  match reply with
  | UploadOk data => inr data
  | UploadFails (Some d) => inl (or_else d "Upload failed")
  | UploadFails None => inl "Upload failed"
  end.

End Api.

(** ** pages/Dashboard.jsx *)

Module Dashboard.
End Dashboard.

(** ** hooks/useChat.js *)

Module UseChat.
Import JS Api.

Inductive Role : Type := user | assistant.

Record Message : Type := {
  id : string;
  content : string;
  role : Role;
  sources : list string;
  timestamp : Z;
  isError : bool
}.

(** The three [useState] cells of the hook. *)
Record State : Type := {
  messages : list Message;
  isLoading : bool;
  streamingMessage : string
}.

Definition initial : State :=
  {| messages := []; isLoading := false; streamingMessage := "" |}.

Definition setMessages (f : list Message -> list Message) (st : State) :=
  {| messages := f (messages st);
     isLoading := isLoading st;
     streamingMessage := streamingMessage st |}.

Definition setIsLoading (b : bool) (st : State) :=
  {| messages := messages st;
     isLoading := b;
     streamingMessage := streamingMessage st |}.

Definition setStreamingMessage (s : string) (st : State) :=
  {| messages := messages st;
     isLoading := isLoading st;
     streamingMessage := s |}.

(** [addMessage]: the message gets the clock reading [now] as its id
    and time stamp. *)
Definition addMessage (now : Z) (content : string) (role : Role)
           (isError : bool) (st : State) : State :=
  setMessages
    (fun prev => prev ++ [ {| id := Date_toString now;
                              content := content;
                              role := role;
                              sources := [];
                              timestamp := now;
                              isError := isError |} ])
    st.

(** The readings of the clock during one call of [sendMessage]. *)
Record Clock : Type := {
  t_user : Z;      (* when the user message is added *)
  t_request : Z;   (* when [assistantMessageId] is computed *)
  t_settled : Z    (* when the answer or the error message is added *)
}.

(** What a call does besides updating the state. *)
Record Effects : Type := {
  requests : list Request;
  toasts : list string
}.

Definition no_effects : Effects := {| requests := []; toasts := [] |}.

Definition error_text : string :=
  "Sorry, I encountered an error while processing your message. Please try again.".

Section SendMessage.
Variable JSON_parse : string -> option json.
Variable Number_toString : Q -> string.
Variable server : Request -> Reply.

(** The [onChunk] closure: [assistantContent] and the hook state. *)
Definition onChunk (chunk : json) (acc : string * State) : string * State :=
  let assistantContent := (fst acc ++ ToString Number_toString chunk)%string in
  (assistantContent, setStreamingMessage assistantContent (snd acc)).

(** [sendMessage(content, temperature = 0.7)], run until it settles. *)
Definition sendMessage (kbId : option string) (content : string)
           (temperature : option Q) (clock : Clock) (st : State)
  : State * Effects :=
  match kbId with
  | None => (st, no_effects)
  | Some kb =>
      if String.eqb (trim content) "" || String.eqb kb "" then (st, no_effects)
      else
        let st1 := addMessage (t_user clock) (trim content) user false st in
        let st2 := setStreamingMessage "" (setIsLoading true st1) in
        let '(request, (outcome, run)) :=
          sendChatMessage JSON_parse (string * State) onChunk server
            kb content (Some (with_default temperature)) ("", st2) in
        let '(assistantContent, st3) := caller run in
        match outcome with
        | Resolved =>
            let assistantMessage :=
              {| id := (Date_toString (t_request clock) ++ "_assistant")%string;
                 content := assistantContent;
                 role := assistant;
                 sources := [];
                 timestamp := t_settled clock;
                 isError := false |} in
            let st4 := setMessages (fun prev => prev ++ [assistantMessage]) st3 in
            (setIsLoading false (setStreamingMessage "" st4),
             {| requests := [request]; toasts := [] |})
        | Rejected m =>
            let st4 := addMessage (t_settled clock) error_text assistant true st3 in
            (setIsLoading false st4,
             {| requests := [request];
                toasts := [or_else m "Failed to send message"] |})
        end
  end.

Definition clearMessages (st : State) : State :=
  setStreamingMessage "" (setMessages (fun _ => []) st).
End SendMessage.

(** While the answer streams, [onChunk] touches nothing but
    [streamingMessage], which follows [assistantContent]. *)
Definition streaming (base : State) (acc : string * State) : Prop :=
  messages (snd acc) = messages base
  /\ isLoading (snd acc) = true
  /\ streamingMessage (snd acc) = fst acc.

(** The request of a call that passes the guard. *)
Definition request_of (kb text : string) (temperature : option Q) : Request :=
  {| req_kbId := kb; req_message := text;
     req_temperature := with_default temperature |}.

End UseChat.

(** ** components/ChatWindow.jsx *)

Module ChatWindow.
Import JS Api.

(** Modelled from the spec: the component [ui/slider] is not part of
    the tree; as the settings slider is described, it reports only
    values between [min] and [max] that are a whole number of [step]s
    away from [min]. [pointer] is the position the user points at. *)
Definition Slider (min max step pointer : Q) : list Q :=
  let snapped := (min + step * inject_Z (Qfloor ((pointer - min) / step + (1 # 2))))%Q in
  [ Qmax min (Qmin max snapped) ].

Definition Slider_min : Q := 0.
Definition Slider_max : Q := 2.
Definition Slider_step : Q := 1 # 10.

Record State : Type := {
  inputMessage : string;
  temperature : list Q;         (* [useState([0.7])] *)
  chat : UseChat.State
}.

Definition initial : State :=
  {| inputMessage := ""; temperature := [(7 # 10)%Q]; chat := UseChat.initial |}.

(** A value between 0 and 2 that is a whole number of tenths. *)
Definition allowed (t : Q) : Prop :=
  (0 <= t /\ t <= 2)%Q /\ exists k : Z, (t == inject_Z k * (1 # 10))%Q.

(** The temperature cell holds one such value. *)
Definition in_range (st : State) : Prop :=
  exists t, temperature st = [t] /\ allowed t.

Inductive Event : Type :=
| Change (text : string)        (* typing into the input *)
| Slide (pointer : Q)           (* moving the temperature slider *)
| Submit (clock : UseChat.Clock)
| Clear.

Section Handlers.
Variable JSON_parse : string -> option json.
Variable Number_toString : Q -> string.
Variable server : Request -> Reply.
(** [knowledgeBase?.kb_id] *)
Variable kbId : option string.

Definition handleSubmit (clock : UseChat.Clock) (st : State)
  : State * UseChat.Effects :=
  if String.eqb (trim (inputMessage st)) "" || UseChat.isLoading (chat st)
  then (st, UseChat.no_effects)
  else
    let message := trim (inputMessage st) in
    let '(chat', eff) :=
      UseChat.sendMessage JSON_parse Number_toString server kbId
        message (hd_error (temperature st)) clock (chat st) in
    ({| inputMessage := ""; temperature := temperature st; chat := chat' |},
     eff).

Definition handle (ev : Event) (st : State) : State * UseChat.Effects :=
  match ev with
  | Change text =>
      ({| inputMessage := text; temperature := temperature st;
          chat := chat st |}, UseChat.no_effects)
  | Slide pointer =>
      ({| inputMessage := inputMessage st;
          temperature := Slider Slider_min Slider_max Slider_step pointer;
          chat := chat st |}, UseChat.no_effects)
  | Submit clock => handleSubmit clock st
  | Clear =>
      ({| inputMessage := inputMessage st; temperature := temperature st;
          chat := UseChat.clearMessages (chat st) |}, UseChat.no_effects)
  end.

(** A session: the state after the events, and every chat request
    posted on the way. *)
Fixpoint run (events : list Event) (st : State) : State * list Request :=
  match events with
  | [] => (st, [])
  | ev :: rest =>
      let '(st', eff) := handle ev st in
      let '(st'', reqs) := run rest st' in
      (st'', UseChat.requests eff ++ reqs)
  end.
End Handlers.

End ChatWindow.

(** ** components/FileDropzone.jsx *)

Module FileDropzone.
Import JS.

(** The fields of a browser [File] the component reads. *)
Record File : Type := {
  name : string;
  type : string;
  size : N
}.

Definition ALLOWED_TYPES : list (string * string) :=
  [ ("application/pdf", ".pdf");
    ("application/vnd.openxmlformats-officedocument.wordprocessingml.document", ".docx");
    ("text/plain", ".txt");
    ("application/vnd.openxmlformats-officedocument.presentationml.presentation", ".pptx");
    ("text/csv", ".csv");
    ("application/vnd.ms-excel", ".csv");
    ("application/vnd.openxmlformats-officedocument.spreadsheetml.sheet", ".csv") ].

(** [20 * 1024 * 1024] *)
Definition MAX_FILE_SIZE : N := (20 * 1024 * 1024)%N.

(** The names every object literal inherits from [Object.prototype];
    the values found there are functions or objects, hence truthy. *)
Definition Object_prototype : list string :=
  [ "constructor"; "__proto__"; "hasOwnProperty"; "isPrototypeOf";
    "propertyIsEnumerable"; "toLocaleString"; "toString"; "valueOf";
    "__defineGetter__"; "__defineSetter__"; "__lookupGetter__";
    "__lookupSetter__" ].

(** Own property of [ALLOWED_TYPES]. *)
Fixpoint own (k : string) (table : list (string * string)) : option string :=
  match table with
  | [] => None
  | (k', v) :: r => if String.eqb k k' then Some v else own k r
  end.

(** The truth value of [ALLOWED_TYPES[k]]. *)
Definition has_type (k : string) : bool :=
  match own k ALLOWED_TYPES with
  | Some v => negb (String.eqb v "")
  | None => includes Object_prototype k
  end.

(** [Object.values(ALLOWED_TYPES)] *)
Definition Object_values (table : list (string * string)) : list string :=
  map snd table.

(** [file.name.toLowerCase().slice(file.name.lastIndexOf('.'))] *)
Definition extension (file_name : string) : string :=
  slice (lastIndexOf "."%char file_name) (toLowerCase file_name).

Definition unsupported (file : File) : bool :=
  negb (has_type (type file))
  && negb (includes (Object_values ALLOWED_TYPES) (extension (name file))).

Definition too_large (file : File) : bool :=
  (MAX_FILE_SIZE <? size file)%N.

Definition validateFile (file : File) : list string :=
  (if unsupported file
   then [(name file ++ ": Unsupported file type. Allowed: PDF, DOCX, TXT, PPTX, CSV")%string]
   else [])
  ++
  (if too_large file
   then [(name file ++ ": File too large. Maximum size: 20MB")%string]
   else []).

Record State : Type := {
  dragActive : bool;
  selectedFiles : list File;
  errors : list string
}.

(** The body of [fileArray.forEach]: [allErrors] and [validFiles]. *)
Fixpoint forEach (files : list File) (acc : list string * list File)
  : list string * list File :=
  match files with
  | [] => acc
  | file :: rest =>
      let fileErrors := validateFile file in
      if (0 <? List.length fileErrors)%nat
      then forEach rest (fst acc ++ fileErrors, snd acc)
      else forEach rest (fst acc, snd acc ++ [file])
  end.

(** [handleFiles]: the new state and the calls of [onFilesSelected]. *)
Definition handleFiles (files : list File) (st : State)
  : State * list (list File) :=
  let '(allErrors, validFiles) := forEach files ([], []) in
  if (0 <? List.length validFiles)%nat
  then ({| dragActive := dragActive st;
           selectedFiles := validFiles;
           errors := allErrors |}, [validFiles])
  else ({| dragActive := dragActive st;
           selectedFiles := selectedFiles st;
           errors := allErrors |}, []).

(** A file is accepted when [validateFile] finds nothing wrong. *)
Definition accepted (file : File) : bool :=
  match validateFile file with
  | [] => true
  | _ => false
  end.

Definition rejected (file : File) : bool := negb (accepted file).

Definition count (p : File -> bool) (files : list File) : nat :=
  List.length (filter p files).

End FileDropzone.

(** ** hooks/useTypewriter.js *)

Module UseTypewriter.
Import JS.

(** The callback that is scheduled next, if any. *)
Inductive Pending : Type :=
| Nothing
| Timer                      (* the [setTimeout] of [delay] *)
| Interval (index : nat).    (* the [setInterval], with its counter *)

Record Hook : Type := {
  displayText : string;
  isComplete : bool;
  pending : Pending
}.

(** The first render and its effect. *)
Definition mount (text : string) : Hook :=
  if String.eqb text ""
  then {| displayText := ""; isComplete := false; pending := Nothing |}
  else {| displayText := ""; isComplete := false; pending := Timer |}.

(** The scheduled callback runs once. *)
Definition fire (text : string) (h : Hook) : Hook :=
  match pending h with
  | Nothing => h
  | Timer =>
      {| displayText := displayText h; isComplete := isComplete h;
         pending := Interval 0 |}
  | Interval index =>
      if (index <? String.length text)%nat
      then {| displayText := take (index + 1) text;
              isComplete := isComplete h;
              pending := Interval (index + 1) |}
      else {| displayText := displayText h; isComplete := true;
              pending := Nothing |}
  end.

(** What holds of the hook between two callbacks. *)
Definition consistent (text : string) (h : Hook) : Prop :=
  match pending h with
  | Nothing =>
      (text = "" /\ displayText h = "" /\ isComplete h = false)
      \/ (displayText h = text /\ isComplete h = true)
  | Timer => displayText h = "" /\ isComplete h = false
  | Interval index =>
      displayText h = take index text
      /\ index <= String.length text
      /\ isComplete h = false
  end.

(** The hook after [n] callbacks. *)
Fixpoint useTypewriter (text : string) (n : nat) : Hook :=
  match n with
  | O => mount text
  | S k => fire text (useTypewriter text k)
  end.

End UseTypewriter.

(** ** components/MessageBubble.jsx *)

Module MessageBubble.
Import JS.

(** The code units [.] does not match. *)
Definition is_line_terminator (c : ascii) : bool :=
  Ascii.eqb c newline || Ascii.eqb c carriage_return.

(** [(.*?)] followed by the literal [close]: the shortest run of
    [.] after which [close] is found; the group and what follows the
    match. *)
Fixpoint lazy_until (close : string) (s : string) : option (string * string) :=
  if String.prefix close s then Some ("", drop (String.length close) s)
  else
    match s with
    | EmptyString => None
    | String c r =>
        if is_line_terminator c then None
        else match lazy_until close r with
             | Some (g, rest) => Some (String c g, rest)
             | None => None
             end
    end.

(** A match of [d(.*?)d] at the start of [s]. *)
Definition match_here (d : string) (s : string) : option (string * string) :=
  if String.prefix d s then lazy_until d (drop (String.length d) s) else None.

(** [s.replace(/d(.*?)d/g, before + '$1' + after)]: matches are
    searched from left to right, each search starting where the
    previous match ended. *)
Fixpoint replace_from (fuel : nat) (d before after : string) (s : string) : string :=
  match fuel with
  | O => s
  | S fuel' =>
      match match_here d s with
      | Some (g, rest) =>
          before ++ g ++ after ++ replace_from fuel' d before after rest
      | None =>
          match s with
          | EmptyString => EmptyString
          | String c r => String c (replace_from fuel' d before after r)
          end
      end
  end.

Definition replace_delimited (d before after : string) (s : string) : string :=
  replace_from (S (String.length s)) d before after s.

(** [s.replace(/\n/g, '<br />')] *)
Fixpoint replace_newlines (s : string) : string :=
  match s with
  | EmptyString => EmptyString
  | String c r =>
      if is_newline c then "<br />" ++ replace_newlines r
      else String c (replace_newlines r)
  end.

Definition quote : string := String (ascii_of_nat 34) EmptyString.

(** The character [c] does not occur in [s]. *)
Fixpoint lacks (c : ascii) (s : string) : bool :=
  match s with
  | EmptyString => true
  | String x r => negb (Ascii.eqb x c) && lacks c r
  end.

(** Plain text: no asterisk, no backquote, no line feed. *)
Definition plain (s : string) : bool :=
  lacks "*"%char s && lacks "`"%char s && lacks newline s.

Definition formatContent (content : string) : string :=
  replace_newlines
    (replace_delimited "`"
       ("<code class=" ++ quote ++ "bg-muted px-1 py-0.5 rounded text-sm" ++ quote ++ ">")
       "</code>"
       (replace_delimited "*" "<em>" "</em>"
          (replace_delimited "**" "<strong>" "</strong>" content))).

End MessageBubble.

(** ** The text splitter of the ingestion pipeline *)

Module Splitter.
Import JS.

Inductive Error : Type := EmptyInput.







End Splitter.

(** ** Concrete frames *)

Module Wire.
Import JS.

Definition double_quote : ascii := ascii_of_nat 34.
Definition backslash : ascii := ascii_of_nat 92.

(** Writes a text with ['] where the wire has a double quote. *)
Fixpoint dq (s : string) : string :=
  match s with
  | EmptyString => EmptyString
  | String c r =>
      String (if Ascii.eqb c "'"%char then double_quote else c) (dq r)
  end.

(** One server-sent event: [data: <payload>] and an empty line. *)
Definition sse (payload : string) : string :=
  "data: " ++ payload ++ String newline (String newline EmptyString).

(** White space between JSON tokens. *)
Definition is_json_space (c : ascii) : bool :=
  let n := nat_of_ascii c in
  ((n =? 32) || (n =? 9) || (n =? 10) || (n =? 13))%nat.

Fixpoint skip_space (s : string) : string :=
  match s with
  | EmptyString => EmptyString
  | String c r => if is_json_space c then skip_space r else s
  end.

(** The character denoted by a one-letter escape. *)
Definition unescape (c : ascii) : option ascii :=
  let n := nat_of_ascii c in
  if (n =? 34)%nat then Some c            (* quote *)
  else if (n =? 92)%nat then Some c       (* backslash *)
  else if (n =? 47)%nat then Some c       (* slash *)
  else if (n =? 110)%nat then Some newline
  else if (n =? 114)%nat then Some carriage_return
  else if (n =? 116)%nat then Some (ascii_of_nat 9)
  else if (n =? 98)%nat then Some (ascii_of_nat 8)
  else if (n =? 102)%nat then Some (ascii_of_nat 12)
  else None.

(** The rest of a string literal after its opening quote. *)
Fixpoint string_body (s : string) : option (string * string) :=
  match s with
  | EmptyString => None
  | String c r =>
      if Ascii.eqb c double_quote then Some (EmptyString, r)
      else if Ascii.eqb c backslash then
        match r with
        | EmptyString => None
        | String e r' =>
            match unescape e, string_body r' with
            | Some ch, Some (v, rest) => Some (String ch v, rest)
            | _, _ => None
            end
        end
      else if (nat_of_ascii c <? 32)%nat then None
      else match string_body r with
           | Some (v, rest) => Some (String c v, rest)
           | None => None
           end
  end.

Definition string_literal (s : string) : option (string * string) :=
  match s with
  | String c r => if Ascii.eqb c double_quote then string_body r else None
  | EmptyString => None
  end.

Fixpoint object_members (fuel : nat) (s : string) : option (list (string * json)) :=
  match fuel with
  | O => None
  | S fuel' =>
      match string_literal (skip_space s) with
      | None => None
      | Some (k, r1) =>
          match skip_space r1 with
          | String ":" r2 =>
              match string_literal (skip_space r2) with
              | None => None
              | Some (v, r3) =>
                  match skip_space r3 with
                  | String "," r4 =>
                      option_map (cons (k, JStr v)) (object_members fuel' r4)
                  | String "}" r4 =>
                      if String.eqb (skip_space r4) "" then Some [(k, JStr v)]
                      else None
                  | _ => None
                  end
              end
          | _ => None
          end
      end
  end.

(** [JSON.parse] on the texts that denote an object all of whose
    members are strings without [\u] escapes; every other text is
    refused. The frames of the examples below are of this form. *)
Definition parse_frame (s : string) : option json :=
  match skip_space s with
  | String "{" r =>
      match skip_space r with
      | String "}" r' =>
          if String.eqb (skip_space r') "" then Some (JObj []) else None
      | _ => option_map JObj (object_members (String.length s) r)
      end
  | _ => None
  end.

(** Numbers do not occur in those frames. *)
Definition no_numbers (q : Q) : string := EmptyString.

End Wire.

(** ** The chat stream, frame by frame *)

Module ChatStream.
Import JS Api.

(** The text on the wire for a sequence of frame payloads. *)
Definition wire (payloads : list string) : string :=
  glue (map Wire.sse payloads).

(** The lines of a well-formed stream: each payload on its [data: ]
    line, followed by an empty line. *)
Definition frame_lines (payload : string) : list string :=
  [("data: " ++ payload)%string; ""].

(** A frame of a well-formed stream: its payload stays on one line, is
    not blank, and is the JSON text of the value [snd frame]. *)
Definition well_formed (JSON_parse : string -> option json)
           (frame : string * json) : Prop :=
  no_newline (fst frame) = true
  /\ trim (fst frame) <> ""
  /\ JSON_parse (fst frame) = Some (snd frame).

(** [frame.type === t] *)
Definition has_type (frame : json) (t : string) : bool :=
  match prop frame "type" with
  | Some ty => strict_eq_str ty t
  | None => false
  end.

(** The frame carries a non-empty (truthy) [content]. *)
Definition carries_content (frame : json) : bool :=
  match prop frame "content" with
  | Some c => truthy c
  | None => false
  end.

Definition content_of (frame : json) : list json :=
  match prop frame "content" with
  | Some (Some c) => [c]
  | _ => []
  end.

(** The frames that precede the first [done] frame. *)
Fixpoint before_done (frames : list json) : list json :=
  match frames with
  | [] => []
  | f :: rest => if has_type f "done" then [] else f :: before_done rest
  end.

Definition has_done (frames : list json) : bool :=
  existsb (fun f => has_type f "done") frames.

(** The contents the claim expects [onChunk] to receive: those of the
    frames before the first [done] that carry a content and have no
    terminal type ([error], [done]). *)
Definition chunks_as_claimed (frames : list json) : list json :=
  flat_map content_of
    (filter (fun f => carries_content f
                      && negb (has_type f "error" || has_type f "done"))
            (before_done frames)).

(** The same, for the frames whose type is none of [start], [end],
    [error], [done]. *)
Definition chunks_forwarded (frames : list json) : list json :=
  flat_map content_of
    (filter (fun f => carries_content f
                      && negb (has_type f "start" || has_type f "end"
                               || has_type f "error" || has_type f "done"))
            (before_done frames)).

(** The payloads logged by [console.warn]: those of the frames before
    the first [done] that are [null] or have type [error]. *)
Fixpoint payloads_warned (frames : list (string * json)) : list string :=
  match frames with
  | [] => []
  | (text, f) :: rest =>
      if has_type f "done" then []
      else match classify f with
           | Throws => text :: payloads_warned rest
           | _ => payloads_warned rest
           end
  end.

(** An [onChunk] that records its arguments, in the order of the
    calls. *)
Definition record_call (c : json) (calls : list json) : list json :=
  calls ++ [c].

(** How the promise settles when the stream ends as [e] without a
    [done] frame. *)
Definition at_end (e : ending) : Settled :=
  match e with
  | Eof => Resolved
  | ReadFails m => Rejected (or_else m "Chat failed")
  end.

End ChatStream.

(** ** Concrete inputs used to run the model *)

Module Examples.
Import JS.

Definition clock : UseChat.Clock :=
  {| UseChat.t_user := 1; UseChat.t_request := 2; UseChat.t_settled := 3 |}.

(** A stream whose first frame is an [error] frame. *)
Definition error_payload : string :=
  Wire.dq "{'type':'error','content':'boom'}".
Definition error_then_content : list string :=
  [ Wire.sse error_payload; Wire.sse (Wire.dq "{'content':'more'}") ].

(** A [start] frame that carries a content. *)
Definition start_payload : string :=
  Wire.dq "{'type':'start','content':'x'}".
Definition start_frame : json :=
  JObj [("type", JStr "start"); ("content", JStr "x")].

(** A whole answer: an ignored [start] frame, two chunks, an [error]
    frame, [done], and a frame after it. *)
Definition frames : list (string * json) :=
  [ (start_payload, start_frame);
    (Wire.dq "{'type':'content','content':'Hel'}",
     JObj [("type", JStr "content"); ("content", JStr "Hel")]);
    (Wire.dq "{'content':'lo'}", JObj [("content", JStr "lo")]);
    (error_payload, JObj [("type", JStr "error"); ("content", JStr "boom")]);
    (Wire.dq "{'type':'done'}", JObj [("type", JStr "done")]);
    (Wire.dq "{'content':'late'}", JObj [("content", JStr "late")]) ].

(** The same answer as the network delivers it, cut inside frames. *)
Definition reads : list string :=
  [ "data: " ++ Wire.dq "{'type':'start','con";
    Wire.dq "tent':'x'}" ++ String newline "";
    String newline "" ++ Wire.sse (Wire.dq "{'type':'content','content':'Hel'}")
      ++ Wire.sse (Wire.dq "{'content':'lo'}")
      ++ Wire.sse error_payload
      ++ "data: ";
    Wire.dq "{'type':'done'}" ++ String newline (String newline "")
      ++ Wire.sse (Wire.dq "{'content':'late'}") ]%string.

(** One chunk arrives, then the connection breaks. *)
Definition broken_stream : Api.Reply :=
  Api.Body [Wire.sse (Wire.dq "{'content':'Hi'}")]
           (Api.ReadFails "network error").

(** An installer of 20 MB and one byte. *)
Definition installer : FileDropzone.File :=
  {| FileDropzone.name := "setup.exe";
     FileDropzone.type := "application/x-msdownload";
     FileDropzone.size := 20 * 1024 * 1024 + 1 |}.

Definition empty_dropzone : FileDropzone.State :=
  {| FileDropzone.dragActive := false;
     FileDropzone.selectedFiles := [];
     FileDropzone.errors := [] |}.

End Examples.

(** ** components/FileDropzone.jsx: the other handlers *)

Module Dropzone.
Import JS FileDropzone.

(** The three [useState] cells at the first render. *)
Definition initial : State :=
  {| dragActive := false; selectedFiles := []; errors := [] |}.

(** [files.filter((_, i) => i !== index)], the positions counted from
    [i]. *)
Fixpoint filter_index (i index : nat) (files : list File) : list File :=
  match files with
  | [] => []
  | file :: rest =>
      if Nat.eqb i index then filter_index (S i) index rest
      else file :: filter_index (S i) index rest
  end.

(** [removeFile]: the new state and the calls of [onFilesSelected]. *)
Definition removeFile (index : nat) (st : State) : State * list (list File) :=
  let newFiles := filter_index 0 index (selectedFiles st) in
  ({| dragActive := dragActive st;
      selectedFiles := newFiles;
      errors := errors st |}, [newFiles]).

Definition clearAll (st : State) : State * list (list File) :=
  ({| dragActive := dragActive st; selectedFiles := []; errors := [] |},
   [[]]).

(** [handleDrag], for an event of type [type]. *)
Definition handleDrag (type : string) (st : State) : State :=
  if String.eqb type "dragenter" || String.eqb type "dragover"
  then {| dragActive := true; selectedFiles := selectedFiles st;
          errors := errors st |}
  else if String.eqb type "dragleave"
  then {| dragActive := false; selectedFiles := selectedFiles st;
          errors := errors st |}
  else st.

(** [files && files[0]]: a list with a first file. *)
Definition has_first (files : list File) : bool :=
  match files with
  | [] => false
  | _ :: _ => true
  end.

(** [handleDrop], for the files of [e.dataTransfer]. *)
Definition handleDrop (files : list File) (st : State)
  : State * list (list File) :=
  let st' := {| dragActive := false; selectedFiles := selectedFiles st;
                errors := errors st |} in
  if has_first files then handleFiles files st' else (st', []).

(** [handleFileInput], for the files of the input element. *)
Definition handleFileInput (files : list File) (st : State)
  : State * list (list File) :=
  if has_first files then handleFiles files st else (st, []).

Inductive Event : Type :=
| Drag (type : string)
| Drop (files : list File)
| FileInput (files : list File)
| Remove (index : nat)
| ClearAll.

Definition handle (ev : Event) (st : State) : State * list (list File) :=
  match ev with
  | Drag type => (handleDrag type st, [])
  | Drop files => handleDrop files st
  | FileInput files => handleFileInput files st
  | Remove index => removeFile index st
  | ClearAll => clearAll st
  end.

(** A session with the dropzone: the state after the events and every
    call of [onFilesSelected], in order. *)
Fixpoint run (events : list Event) (st : State) : State * list (list File) :=
  match events with
  | [] => (st, [])
  | ev :: rest =>
      let '(st', calls) := handle ev st in
      let '(st'', calls') := run rest st' in
      (st'', calls ++ calls')
  end.


End Dropzone.

(** ** components/Sidebar.jsx *)

Module Sidebar.
Import JS.

Record KnowledgeBase : Type := {
  kb_id : string;
  name : string;
  created_at : string;
  file_count : N
}.

(** [editingId] (which may be [null]) and [editingName]. *)
Record State : Type := {
  editingId : option string;
  editingName : string
}.

Definition initial : State := {| editingId := None; editingName := "" |}.

(** How a request of the axios instance ends: it resolves, or it
    rejects with [error.response?.data?.detail] as given. *)
Inductive ApiReply : Type :=
| Done
| Failed (detail : option string).

(** [error.response?.data?.detail || fallback] *)
Definition api_error (detail : option string) (fallback : string) : string :=
  match detail with
  | Some d => or_else d fallback
  | None => fallback
  end.

(** [updateKnowledgeBase] of [utils/api.js]: [None] when the promise
    resolves, the message of the error it throws otherwise. *)
Definition updateKnowledgeBase (reply : ApiReply) : option string :=
  match reply with
  | Done => None
  | Failed detail => Some (api_error detail "Failed to update knowledge base")
  end.


Inductive Toast : Type :=
| Success (text : string)
| Error (text : string).

(** What a handler does besides updating the state. *)
Record Effects : Type := {
  renames : list (option string * string);  (* [PUT /kb/{kbId}] with a name *)
  deletes : list string;                    (* [DELETE /kb/{kbId}] *)
  toasts : list Toast;
  invalidations : nat;                      (* [invalidateQueries] *)
  selections : list (option KnowledgeBase)  (* [onSelectKB] *)
}.

Definition no_effects : Effects :=
  {| renames := []; deletes := []; toasts := []; invalidations := 0;
     selections := [] |}.

(** [knowledgeBases.find(kb => kb.kb_id === id)] *)
Definition find_kb (id : option string) (kbs : list KnowledgeBase)
  : option KnowledgeBase :=
  match id with
  | None => None
  | Some i => List.find (fun kb => String.eqb (kb_id kb) i) kbs
  end.

Definition startEditing (kb : KnowledgeBase) (st : State) : State :=
  {| editingId := Some (kb_id kb); editingName := name kb |}.

Definition cancelEdit (st : State) : State :=
  {| editingId := None; editingName := "" |}.

(** [editingName !== found?.name] *)
Definition differs (editing : string) (found : option KnowledgeBase) : bool :=
  match found with
  | None => true
  | Some kb => negb (String.eqb editing (name kb))
  end.

Section Handlers.
(** The list the query holds when the handler runs. *)
Variable knowledgeBases : list KnowledgeBase.
(** What the server does with a rename and with a delete. *)
Variable rename_reply : option string -> string -> ApiReply.
Variable delete_reply : string -> ApiReply.

(** [saveEdit], with the mutation run to its end. *)
Definition saveEdit (st : State) : State * Effects :=
  if negb (String.eqb (trim (editingName st)) "")
     && differs (editingName st) (find_kb (editingId st) knowledgeBases)
  then
    let request := (editingId st, trim (editingName st)) in
    match updateKnowledgeBase
            (rename_reply (editingId st) (trim (editingName st))) with
    | None =>
        ({| editingId := None; editingName := "" |},
         {| renames := [request]; deletes := [];
            toasts := [Success "Knowledge base renamed successfully"];
            invalidations := 1; selections := [] |})
    | Some message =>
        (st,
         {| renames := [request]; deletes := [];
            toasts := [Error (or_else message "Failed to rename knowledge base")];
            invalidations := 0; selections := [] |})
    end
  else ({| editingId := None; editingName := "" |}, no_effects).

End Handlers.

End Sidebar.

(** ** pages/Dashboard.jsx: the upload *)

Module UploadPage.
Import JS Api.

Record State : Type := {
  selectedKB : option Sidebar.KnowledgeBase;
  showUpload : bool;
  selectedFiles : list FileDropzone.File;
  isUploading : bool;
  uploadProgress : N;
  uploadSuccess : bool
}.

Definition initial : State :=
  {| selectedKB := None; showUpload := false; selectedFiles := [];
     isUploading := false; uploadProgress := 0; uploadSuccess := false |}.

Definition handleNewKB (st : State) : State :=
  {| selectedKB := None; showUpload := true;
     selectedFiles := selectedFiles st; isUploading := isUploading st;
     uploadProgress := uploadProgress st; uploadSuccess := uploadSuccess st |}.

Definition handleFilesSelected (files : list FileDropzone.File) (st : State)
  : State :=
  {| selectedKB := selectedKB st; showUpload := showUpload st;
     selectedFiles := files; isUploading := isUploading st;
     uploadProgress := uploadProgress st; uploadSuccess := uploadSuccess st |}.

Definition handleCancelUpload (st : State) : State :=
  {| selectedKB := selectedKB st; showUpload := false;
     selectedFiles := []; isUploading := isUploading st;
     uploadProgress := 0; uploadSuccess := false |}.

Definition setIsUploading (b : bool) (st : State) : State :=
  {| selectedKB := selectedKB st; showUpload := showUpload st;
     selectedFiles := selectedFiles st; isUploading := b;
     uploadProgress := uploadProgress st; uploadSuccess := uploadSuccess st |}.

Definition setUploadProgress (n : N) (st : State) : State :=
  {| selectedKB := selectedKB st; showUpload := showUpload st;
     selectedFiles := selectedFiles st; isUploading := isUploading st;
     uploadProgress := n; uploadSuccess := uploadSuccess st |}.

Definition setUploadSuccess (b : bool) (st : State) : State :=
  {| selectedKB := selectedKB st; showUpload := showUpload st;
     selectedFiles := selectedFiles st; isUploading := isUploading st;
     uploadProgress := uploadProgress st; uploadSuccess := b |}.

(** [toast.success] is given [result.message] as it is; [toast.error]
    a string. *)
Inductive Toast : Type :=
| Success (message : value)
| Error (text : string).

Record Effects : Type := {
  uploads : list (list FileDropzone.File);  (* [POST /upload] with these files *)
  toasts : list Toast;
  invalidations : nat;                      (* [invalidateQueries] *)
  timers : nat                              (* [setTimeout] of two seconds *)
}.

Section HandleUpload.
(** The message of the [TypeError] raised by reading a property of
    [null]; it depends on the browser. *)
Variable TypeError_message : string.

(** [handleUpload], until the promise of [uploadFiles] has settled and
    the [finally] block has run. [events] are the [loaded] and [total]
    of the progress events of the request. *)
Definition handleUpload (reply : UploadReply) (events : list (N * N))
           (st : State) : State * Effects :=
  match selectedFiles st with
  | [] =>
      (st, {| uploads := []; toasts := [Error "Please select files to upload"];
              invalidations := 0; timers := 0 |})
  | _ :: _ =>
      let st1 := setUploadProgress 0 (setIsUploading true st) in
      let st2 := fold_left (fun s p => setUploadProgress p s)
                           (progress_calls events) st1 in
      match uploadFiles reply with
      | inr result =>
          let st3 := setUploadSuccess true st2 in
          match prop result "message" with
          | Some message =>
              (setIsUploading false st3,
               {| uploads := [selectedFiles st]; toasts := [Success message];
                  invalidations := 1; timers := 1 |})
          | None =>
              (setIsUploading false st3,
               {| uploads := [selectedFiles st];
                  toasts := [Error (or_else TypeError_message "Upload failed")];
                  invalidations := 0; timers := 0 |})
          end
      | inl message =>
          (setIsUploading false st2,
           {| uploads := [selectedFiles st];
              toasts := [Error (or_else message "Upload failed")];
              invalidations := 0; timers := 0 |})
      end
  end.
End HandleUpload.

(** The page after the dropzone has reported these selections. *)
Definition after_selections (calls : list (list FileDropzone.File))
           (st : State) : State :=
  fold_left (fun s files => handleFilesSelected files s) calls st.

End UploadPage.

(** ** More about the chat stream *)

Module StreamText.
Import JS.

(** A text made of whole lines. *)
Definition text_of_lines (lines : list string) : string :=
  glue (map (fun l => l ++ String newline EmptyString)%string lines).

(** [line.startsWith('data: ')] *)
Definition is_data_line (line : string) : bool := startsWith "data: " line.

End StreamText.

(** ** More about the chat window *)

Module ChatLog.
Import UseChat.



End ChatLog.

(** ** More concrete inputs *)

Module Samples.
Import JS.

Definition report : FileDropzone.File :=
  {| FileDropzone.name := "Report.PDF"; FileDropzone.type := "";
     FileDropzone.size := 1024 |}.

Definition notes : FileDropzone.File :=
  {| FileDropzone.name := "notes.txt"; FileDropzone.type := "text/plain";
     FileDropzone.size := 10 |}.

Definition contracts : Sidebar.KnowledgeBase :=
  {| Sidebar.kb_id := "kb-1"; Sidebar.name := "Contracts";
     Sidebar.created_at := "2024-01-01T00:00:00Z"; Sidebar.file_count := 2 |}.

Definition page_with_files : UploadPage.State :=
  UploadPage.handleFilesSelected [report; notes] UploadPage.initial.

(** Two cuts of one stream. *)
Definition whole : list string :=
  [ (Wire.sse (Wire.dq "{'content':'Hel'}")
     ++ Wire.sse (Wire.dq "{'content':'lo'}"))%string ].
Definition pieces : list string :=
  [ "da"; "ta: " ++ Wire.dq "{'content':'H"; Wire.dq "el'}";
    String newline ""; String newline "" ++ "data: ";
    Wire.dq "{'content':'lo'}" ++ String newline (String newline "") ]%string.

Definition answer_frames : list (string * json) :=
  [ (Wire.dq "{'type':'start'}", JObj [("type", JStr "start")]);
    (Wire.dq "{'content':'Hel'}", JObj [("content", JStr "Hel")]);
    (Wire.dq "{'content':'lo'}", JObj [("content", JStr "lo")]);
    (Wire.dq "{'type':'done'}", JObj [("type", JStr "done")]) ].

Definition answer_reads : list string :=
  [ (Wire.sse (Wire.dq "{'type':'start'}")
     ++ Wire.sse (Wire.dq "{'content':'Hel'}"))%string;
    (Wire.sse (Wire.dq "{'content':'lo'}")
     ++ Wire.sse (Wire.dq "{'type':'done'}"))%string ].

End Samples.

(** ** More about the message bubble *)

Module Markup.
Import JS MessageBubble.



End Markup.

(* ================================================================== *)
(** * Part II: properties                                              *)
(* ================================================================== *)

(** ** Strings *)

Section StringFacts.
Import JS.

Lemma append_nil_r (s : string) : (s ++ "")%string = s.
Proof. induction s as [|c s IH]; simpl; [reflexivity | now rewrite IH]. Qed.

Lemma append_assoc (a b c : string) :
  ((a ++ b) ++ c)%string = (a ++ (b ++ c))%string.
Proof. induction a as [|x a IH]; simpl; [reflexivity | now rewrite IH]. Qed.


Lemma last_app_ne {A : Type} (l l' : list A) (d : A) :
  l' <> [] -> last (l ++ l') d = last l' d.
Proof.
  intros Hne. induction l as [|x l IH]; [reflexivity|].
  simpl. destruct (l ++ l') eqn:E; [|exact IH].
  apply app_eq_nil in E. destruct E. contradiction.
Qed.

Lemma split_newline_not_nil (s : string) : split_newline s <> [].
Proof.
  induction s as [|c s IH]; simpl; [discriminate|].
  destruct (is_newline c); [discriminate|].
  destruct (split_newline s); discriminate.
Qed.

Lemma split_newline_parts (s : string) :
  split_newline s = complete_lines s ++ [unfinished s].
Proof. apply app_removelast_last, split_newline_not_nil. Qed.

Lemma split_newline_single (s : string) :
  no_newline s = true -> split_newline s = [s].
Proof.
  induction s as [|c s IH]; simpl; [reflexivity|].
  destruct (is_newline c); simpl; [discriminate|].
  intros H. now rewrite (IH H).
Qed.

Lemma split_newline_line (x y : string) :
  no_newline x = true ->
  split_newline (x ++ String newline y) = x :: split_newline y.
Proof.
  induction x as [|c x IH]; simpl.
  - intros _. reflexivity.
  - destruct (is_newline c); simpl; [discriminate|].
    intros H. now rewrite (IH H).
Qed.

(** Splitting a text that arrives in two pieces: the lines of the
    first piece, then the split of its unfinished line followed by
    the second piece. *)
Lemma split_newline_app (a b : string) :
  split_newline (a ++ b)
  = complete_lines a ++ split_newline (unfinished a ++ b).
Proof.
  unfold complete_lines, unfinished.
  induction a as [|c a IH]; [reflexivity|].
  simpl. destruct (is_newline c) eqn:Hc.
  - pose proof (split_newline_not_nil a) as Hne.
    destruct (split_newline a) as [|l ls] eqn:Ha; [congruence|].
    rewrite IH. reflexivity.
  - rewrite IH. clear IH.
    pose proof (split_newline_not_nil a) as Hne.
    destruct (split_newline a) as [|l ls] eqn:Ha; [congruence|].
    destruct ls as [|l' ls'].
    + simpl. rewrite Hc.
      destruct (split_newline (l ++ b)) eqn:Hs; [|reflexivity].
      now apply split_newline_not_nil in Hs.
    + reflexivity.
Qed.

Lemma complete_lines_app (a b : string) :
  complete_lines (a ++ b)
  = complete_lines a ++ complete_lines (unfinished a ++ b).
Proof.
  unfold complete_lines at 1. rewrite split_newline_app.
  rewrite removelast_app by apply split_newline_not_nil. reflexivity.
Qed.

Lemma unfinished_app (a b : string) :
  unfinished (a ++ b) = unfinished (unfinished a ++ b).
Proof.
  unfold unfinished at 1. rewrite split_newline_app.
  rewrite last_app_ne by apply split_newline_not_nil. reflexivity.
Qed.
Lemma take_all (s : string) : take (String.length s) s = s.
Proof. induction s as [|c s IH]; simpl; [reflexivity | now rewrite IH]. Qed.

Lemma take_drop (k : nat) (s : string) : (take k s ++ drop k s)%string = s.
Proof.
  revert s. induction k as [|k IH]; intros [|c s]; simpl; try reflexivity.
  now rewrite IH.
Qed.

Lemma length_take (k : nat) (s : string) :
  String.length (take k s) = Nat.min k (String.length s).
Proof.
  revert s. induction k as [|k IH]; intros [|c s]; simpl; try reflexivity.
  now rewrite IH.
Qed.


End StringFacts.

(** ** utils/api.js: the stream loop *)

Section StreamFacts.
Import JS Api ChatStream.

Variable JSON_parse : string -> option json.
Variable S : Type.
Variable onChunk : json -> S -> S.

Notation process_line := (process_line JSON_parse S onChunk).
Notation for_lines := (for_lines JSON_parse S onChunk).
Notation read_loop := (read_loop JSON_parse S onChunk).

Lemma for_lines_app (l1 l2 : list string) (r : Run S) :
  for_lines (l1 ++ l2) r
  = match for_lines l1 r with
    | (Return, r') => (Return, r')
    | (Continue, r') => for_lines l2 r'
    end.
Proof.
  revert r. induction l1 as [|l l1 IH]; intros r; simpl; [reflexivity|].
  destruct (process_line l r) as [[|] r']; [apply IH | reflexivity].
Qed.

Lemma split_newline_segments (s : string) :
  Forall (fun x => no_newline x = true) (split_newline s).
Proof.
  induction s as [|c s IH]; simpl.
  - repeat constructor.
  - destruct (is_newline c) eqn:Hc.
    + constructor; [reflexivity | exact IH].
    + destruct (split_newline s) as [|l ls]; [repeat constructor; simpl; now rewrite Hc|].
      inversion IH; subst. constructor; [simpl; now rewrite Hc | assumption].
Qed.

Lemma no_newline_unfinished (s : string) : no_newline (unfinished s) = true.
Proof.
  unfold unfinished.
  pose proof (split_newline_segments s) as H.
  pose proof (split_newline_not_nil s) as Hne.
  rewrite (app_removelast_last "" Hne) in H.
  apply Forall_app in H. destruct H as [_ H]. now inversion H.
Qed.

Lemma complete_lines_unfinished (s : string) :
  complete_lines (unfinished s) = [].
Proof.
  unfold complete_lines.
  now rewrite (split_newline_single _ (no_newline_unfinished s)).
Qed.

(** The loop over the reads sees exactly the complete lines of the
    whole text, however the text is cut into reads. *)
Lemma read_loop_whole (reads : list string) (e : ending) :
  forall (buffer : string) (r : Run S),
    complete_lines buffer = [] ->
    read_loop reads e buffer r
    = match for_lines (complete_lines (buffer ++ glue reads)) r with
      | (Return, r') => (Resolved, r')
      | (Continue, r') => (at_end e, r')
      end.
Proof.
  induction reads as [|v rest IH]; intros buffer r Hb.
  - simpl. rewrite append_nil_r, Hb. simpl. destruct e; reflexivity.
  - simpl glue. rewrite <- append_assoc, complete_lines_app, for_lines_app.
    simpl. fold (complete_lines (buffer ++ v)).
    destruct (for_lines (complete_lines (buffer ++ v)) r) as [[|] r'];
      [|reflexivity].
    fold (unfinished (buffer ++ v)).
    apply IH, complete_lines_unfinished.
Qed.

Lemma sse_app (p w : string) :
  (Wire.sse p ++ w)%string
  = (("data: " ++ p) ++ String newline ("" ++ String newline w))%string.
Proof.
  unfold Wire.sse. simpl. do 6 f_equal.
  rewrite append_assoc. reflexivity.
Qed.

Lemma complete_lines_wire (payloads : list string) :
  Forall (fun p => no_newline p = true) payloads ->
  complete_lines (wire payloads) = flat_map frame_lines payloads.
Proof.
  unfold complete_lines, wire.
  induction 1 as [|p ps Hp _ IH]; [reflexivity|].
  cbn [map glue]. rewrite sse_app.
  rewrite split_newline_line by (simpl; exact Hp).
  rewrite (split_newline_line "" _ eq_refl).
  pose proof (split_newline_not_nil (glue (map Wire.sse ps))) as Hne.
  simpl flat_map. rewrite <- IH.
  destruct (split_newline (glue (map Wire.sse ps))) eqn:E; [congruence|].
  reflexivity.
Qed.

(** What [classify] decides, in terms of the type and the content of
    the frame. *)
Lemma classify_cases (f : json) :
  match classify f with
  | Finish => has_type f "done" = true
  | Chunk c =>
      has_type f "done" = false
      /\ carries_content f = true
      /\ (has_type f "start" || has_type f "end"
          || has_type f "error" || has_type f "done") = false
      /\ content_of f = [c]
  | Throws =>
      has_type f "done" = false
      /\ (carries_content f = false \/ has_type f "error" = true)
  | Ignore =>
      has_type f "done" = false
      /\ (carries_content f = false
          \/ (has_type f "start" || has_type f "end") = true)
  end.
Proof.
  unfold classify, has_type, carries_content, content_of.
  destruct f as [| b | q | s | l | ms]; cbn -[truthy]; auto.
  assert (Hcontent :
    match
      match member "content" ms with
      | Some c => if truthy (Some c) then Chunk c else Ignore
      | None => Ignore
      end
    with
    | Finish => False
    | Chunk c =>
        truthy (member "content" ms) = true
        /\ match member "content" ms with Some c' => [c'] | None => [] end = [c]
    | Throws => False
    | Ignore => truthy (member "content" ms) = false
    end).
  { destruct (member "content" ms) as [c|]; [|reflexivity].
    destruct (truthy (Some c)) eqn:Ht; auto. }
  destruct (member "type" ms) as [ty|]; cbn -[truthy].
  - destruct ty as [| b | q | s | l | ms']; cbn -[truthy].
    4: { destruct (String.eqb_spec s "start") as [->|N1]; [cbn; auto|].
         destruct (String.eqb_spec s "end") as [->|N2]; [cbn; auto|].
         destruct (String.eqb_spec s "error") as [->|N3]; [cbn; auto|].
         destruct (String.eqb_spec s "done") as [->|N4]; [cbn; auto|].
         cbn -[truthy]. revert Hcontent.
         destruct (match member "content" ms with
                   | Some c => if truthy (Some c) then Chunk c else Ignore
                   | None => Ignore
                   end); intuition. }
    all: revert Hcontent;
      destruct (match member "content" ms with
                | Some c => if truthy (Some c) then Chunk c else Ignore
                | None => Ignore
                end); intuition.
  - revert Hcontent.
    destruct (match member "content" ms with
              | Some c => if truthy (Some c) then Chunk c else Ignore
              | None => Ignore
              end); intuition.
Qed.

Lemma process_line_blank (r : Run S) : process_line "" r = (Continue, r).
Proof. reflexivity. Qed.

Lemma process_line_frame (frame : string * json) (r : Run S) :
  well_formed JSON_parse frame ->
  process_line ("data: " ++ fst frame) r
  = match classify (snd frame) with
    | Ignore => (Continue, r)
    | Throws => (Continue, warn S (fst frame) r)
    | Finish => (Return, r)
    | Chunk c => (Continue, call S onChunk c r)
    end.
Proof.
  intros (_ & Hblank & Hparse).
  unfold Api.process_line. simpl.
  replace (startsWith "" (fst frame)) with true
    by (unfold startsWith; now destruct (fst frame)).
  apply String.eqb_neq in Hblank. rewrite Hblank, Hparse. reflexivity.
Qed.

(** The loop over the lines of a well-formed stream. *)
Lemma for_lines_frames (frames : list (string * json)) :
  Forall (well_formed JSON_parse) frames ->
  forall r : Run S,
    for_lines (flat_map frame_lines (map fst frames)) r
    = (if has_done (map snd frames) then Return else Continue,
       {| caller := fold_left (fun s c => onChunk c s)
                              (chunks_forwarded (map snd frames)) (caller r);
          warnings := warnings r ++ payloads_warned frames |}).
Proof.
  unfold chunks_forwarded.
  induction 1 as [|[text f] frames Hf _ IH]; intros r.
  - simpl. rewrite app_nil_r. destruct r; reflexivity.
  - cbn [map flat_map frame_lines fst snd app for_lines].
    pose proof (process_line_frame (text, f) r Hf) as Hp.
    cbn [fst snd] in Hp. rewrite Hp. clear Hp.
    pose proof (classify_cases f) as Hc.
    cbn [has_done existsb before_done payloads_warned].
    destruct (classify f) as [| | |c].
    + destruct Hc as [Hd Hc]. rewrite Hd. cbn [for_lines orb].
      rewrite process_line_blank, IH. cbn [filter].
      replace (carries_content f
               && negb (has_type f "start" || has_type f "end"
                        || has_type f "error" || has_type f "done"))
        with false; [reflexivity|].
      destruct Hc as [Hc|Hc]; [now rewrite Hc|].
      rewrite andb_comm.
      destruct (has_type f "start"), (has_type f "end");
        simpl in *; congruence.
    + destruct Hc as [Hd Hc]. rewrite Hd. cbn [for_lines orb].
      rewrite process_line_blank, IH. cbn [filter warn caller warnings].
      replace (carries_content f
               && negb (has_type f "start" || has_type f "end"
                        || has_type f "error" || has_type f "done"))
        with false; [now rewrite <- app_assoc|].
      destruct Hc as [Hc|Hc]; [now rewrite Hc|].
      rewrite andb_comm, Hc.
      destruct (has_type f "start"), (has_type f "end"); reflexivity.
    + rewrite Hc. simpl. rewrite app_nil_r. destruct r; reflexivity.
    + destruct Hc as (Hd & Hcc & Hty & Hco). rewrite Hd. cbn [for_lines orb].
      rewrite process_line_blank, IH. cbn [filter call caller warnings].
      rewrite Hcc, Hty. cbn [andb negb flat_map]. rewrite Hco.
      reflexivity.
Qed.

(** Whatever the frames are, a stream that ends normally resolves the
    promise: nothing a frame contains makes the loop throw. *)
Lemma read_loop_eof_resolves (reads : list string) :
  forall (buffer : string) (r : Run S),
    fst (read_loop reads Eof buffer r) = Resolved.
Proof.
  induction reads as [|v rest IH]; intros buffer r; simpl; [reflexivity|].
  destruct (for_lines _ r) as [[|] r']; [apply IH | reflexivity].
Qed.

(** C2 (amended): on a well-formed stream, however it is cut into
    reads, [onChunk] is called once for each frame before the first
    [done] frame that carries a truthy content and whose type is none
    of [start], [end], [error], [done], in the order of the frames; the
    promise resolves at the first [done] frame, and without one it
    settles as the end of the stream dictates. *)
Theorem sendChatMessage_forwards_chunks
        (frames : list (string * json)) (reads : list string) (e : ending)
        (kbId message : string) (temperature : option Q) (s : S) :
  Forall (well_formed JSON_parse) frames ->
  glue reads = wire (map fst frames) ->
  caller (snd (snd (sendChatMessage JSON_parse S onChunk
                      (fun _ => Body reads e) kbId message temperature s)))
  = fold_left (fun st c => onChunk c st)
              (chunks_forwarded (map snd frames)) s
  /\ fst (snd (sendChatMessage JSON_parse S onChunk
                 (fun _ => Body reads e) kbId message temperature s))
     = (if has_done (map snd frames) then Resolved else at_end e).
Proof.
  intros Hwf Hwire. cbn -[read_loop has_done chunks_forwarded].
  rewrite read_loop_whole by reflexivity.
  cbn [append]. rewrite Hwire, complete_lines_wire.
  - rewrite (for_lines_frames frames Hwf).
    destruct (has_done (map snd frames)); split; reflexivity.
  - clear -Hwf. induction Hwf as [|f fs Hf _ IH]; constructor; [|exact IH].
    apply Hf.
Qed.

(** A property of the caller's state that every call of [onChunk]
    preserves still holds when the promise settles. *)
Section Invariant.
Variable P : S -> Prop.
Hypothesis P_onChunk : forall c s, P s -> P (onChunk c s).

Lemma process_line_invariant (line : string) (r : Run S) :
  P (caller r) -> P (caller (snd (process_line line r))).
Proof.
  intros H. unfold Api.process_line.
  destruct (startsWith "data: " line); [|exact H].
  destruct (String.eqb _ ""); [exact H|].
  destruct (JSON_parse _) as [parsed|]; [|exact H].
  destruct (classify parsed); simpl; auto.
Qed.

Lemma for_lines_invariant (lines : list string) :
  forall r : Run S,
    P (caller r) -> P (caller (snd (for_lines lines r))).
Proof.
  induction lines as [|l ls IH]; intros r H; simpl; [exact H|].
  pose proof (process_line_invariant l r H) as Hl.
  destruct (process_line l r) as [[|] r']; simpl in *; auto.
Qed.

Lemma read_loop_invariant (reads : list string) (e : ending) :
  forall (buffer : string) (r : Run S),
    P (caller r) -> P (caller (snd (read_loop reads e buffer r))).
Proof.
  induction reads as [|v rest IH]; intros buffer r H; simpl.
  - destruct e; exact H.
  - pose proof (for_lines_invariant
                  (removelast (split_newline (buffer ++ v))) r H) as Hl.
    destruct (for_lines _ r) as [[|] r']; simpl in *; auto.
Qed.

Lemma settle_invariant (reply : Reply) (r : Run S) :
  P (caller r)
  -> P (caller (snd (settle JSON_parse S onChunk reply r))).
Proof.
  intros H. destruct reply as [m | d | | reads e]; simpl; auto.
  now apply read_loop_invariant.
Qed.
End Invariant.
End StreamFacts.

(** C1: an [error] frame does not reject the promise. The exception
    thrown for it is caught by the [catch] around [JSON.parse], which
    only logs the payload; the loop goes on with the next frame and the
    promise resolves. *)
Theorem sendChatMessage_swallows_error_frame :
  Api.sendChatMessage Wire.parse_frame (list JS.json) ChatStream.record_call
    (fun _ => Api.Body Examples.error_then_content Api.Eof) "kb" "hi" None []
  = ({| Api.req_kbId := "kb"; Api.req_message := "hi";
        Api.req_temperature := (7 # 10)%Q |},
     (Api.Resolved,
      {| Api.caller := [JS.JStr "more"];
         Api.warnings := [Examples.error_payload] |})).
Proof. vm_compute. reflexivity. Qed.

(** C2, as stated, fails on a [start] frame that carries a content: the
    frame has no terminal type, yet [onChunk] is not called for it. *)
Lemma start_frame_content_not_forwarded :
  ChatStream.well_formed Wire.parse_frame
    (Examples.start_payload, Examples.start_frame)
  /\ JS.glue [Wire.sse Examples.start_payload]
     = ChatStream.wire [Examples.start_payload]
  /\ ChatStream.chunks_as_claimed [Examples.start_frame] = [JS.JStr "x"]
  /\ Api.caller
       (snd (snd (Api.sendChatMessage Wire.parse_frame (list JS.json)
                    ChatStream.record_call
                    (fun _ => Api.Body [Wire.sse Examples.start_payload] Api.Eof)
                    "kb" "hi" None [])))
     <> ChatStream.chunks_as_claimed [Examples.start_frame].
Proof.
  repeat split; try (vm_compute; reflexivity); vm_compute; discriminate.
Qed.

(** A run of C2 (amended): the answer of [Examples.frames], delivered
    in the pieces of [Examples.reads] over a connection that breaks
    after the last piece. *)
Lemma sendChatMessage_forwards_chunks_witness :
  Forall (ChatStream.well_formed Wire.parse_frame) Examples.frames
  /\ JS.glue Examples.reads = ChatStream.wire (map fst Examples.frames)
  /\ Api.caller
       (snd (snd (Api.sendChatMessage Wire.parse_frame (list JS.json)
                    ChatStream.record_call
                    (fun _ => Api.Body Examples.reads
                                       (Api.ReadFails "connection lost"))
                    "kb" "hi" None [])))
     = [JS.JStr "Hel"; JS.JStr "lo"]
  /\ fst (snd (Api.sendChatMessage Wire.parse_frame (list JS.json)
                 ChatStream.record_call
                 (fun _ => Api.Body Examples.reads
                                    (Api.ReadFails "connection lost"))
                 "kb" "hi" None []))
     = Api.Resolved.
Proof.
  assert (Hwf : Forall (ChatStream.well_formed Wire.parse_frame) Examples.frames).
  { repeat constructor; try (vm_compute; reflexivity); vm_compute; discriminate. }
  assert (Hwire : JS.glue Examples.reads
                  = ChatStream.wire (map fst Examples.frames)).
  { vm_compute. reflexivity. }
  split; [exact Hwf|]. split; [exact Hwire|].
  exact (sendChatMessage_forwards_chunks Wire.parse_frame (list JS.json)
           ChatStream.record_call Examples.frames Examples.reads
           (Api.ReadFails "connection lost") "kb" "hi" None [] Hwf Hwire).
Defined.

(** ** hooks/useChat.js *)

Section UseChatFacts.
Import JS Api UseChat.

Variable JSON_parse : string -> option json.
Variable Number_toString : Q -> string.
Variable server : Request -> Reply.

Notation sendMessage := (sendMessage JSON_parse Number_toString server).
Notation onChunk := (UseChat.onChunk Number_toString).

Lemma streaming_onChunk (base : State) (c : json) (acc : string * State) :
  streaming base acc -> streaming base (onChunk c acc).
Proof. intros (Hm & Hl & Hs). repeat split; simpl; assumption. Qed.

(** The state [sendMessage] leaves behind once the request settled. *)
Lemma sendMessage_settled (kb content : string) (temperature : option Q)
      (clock : Clock) (st : State) :
  trim content <> "" -> kb <> "" ->
  let '(st', eff) := sendMessage (Some kb) content temperature clock st in
  requests eff = [request_of kb content temperature]
  /\ isLoading st' = false
  /\ exists (answer : Message) (streamed : string),
      messages st'
      = messages st
        ++ [ {| id := Date_toString (t_user clock); content := trim content;
                role := user; sources := []; timestamp := t_user clock;
                isError := false |};
             answer ]
      /\ role answer = assistant
      /\ match toasts eff with
         | [] => isError answer = false /\ UseChat.content answer = streamed
                 /\ streamingMessage st' = ""
         | _ => isError answer = true /\ UseChat.content answer = error_text
                /\ streamingMessage st' = streamed
         end.
Proof.
  intros Hc Hk. unfold UseChat.sendMessage.
  apply String.eqb_neq in Hc, Hk. rewrite Hc, Hk. cbn [orb].
  unfold sendChatMessage.
  set (st2 := setStreamingMessage "" (setIsLoading true
                (addMessage (t_user clock) (trim content) user false st))).
  set (request := {| req_kbId := kb; req_message := content;
                     req_temperature := with_default (Some (with_default temperature)) |}).
  pose proof (settle_invariant JSON_parse (string * State) onChunk
                (streaming st2) (streaming_onChunk st2) (server request)
                {| caller := ("", st2); warnings := [] |}) as Hinv.
  destruct (settle JSON_parse (string * State) onChunk (server request) _)
    as [outcome run].
  simpl in Hinv. destruct (Hinv (conj eq_refl (conj eq_refl eq_refl)))
    as (Hm & Hl & Hs). clear Hinv.
  destruct (caller run) as [assistantContent st3]. simpl in Hm, Hl, Hs.
  destruct outcome as [|m]; simpl.
  - split; [reflexivity|]. split; [reflexivity|].
    eexists; exists assistantContent. rewrite Hm. simpl.
    rewrite <- app_assoc. simpl. repeat split; reflexivity.
  - split; [reflexivity|]. split; [reflexivity|].
    eexists; exists assistantContent. rewrite Hm. simpl.
    rewrite <- app_assoc. simpl. repeat split; try reflexivity. exact Hs.
Qed.

(** C6: for a content that is empty or only white space, and for a
    call without a knowledge base, [sendMessage] posts nothing and
    leaves the messages, the loading flag and the streaming text as
    they are. *)
Theorem sendMessage_guard (kbId : option string) (content : string)
        (temperature : option Q) (clock : Clock) (st : State) :
  trim content = "" \/ kbId = None \/ kbId = Some "" ->
  sendMessage kbId content temperature clock st = (st, no_effects).
Proof.
  unfold UseChat.sendMessage.
  intros [H | [H | H]].
  - rewrite H. now destruct kbId.
  - now subst kbId.
  - subst kbId. now rewrite orb_true_r.
Qed.

(** A request is posted only for a content with something other
    than white space in it, and with a knowledge base. *)
Lemma sendMessage_posts_only_if (kbId : option string) (content : string)
      (temperature : option Q) (clock : Clock) (st : State) :
  requests (snd (sendMessage kbId content temperature clock st)) <> [] ->
  trim content <> "" /\ exists kb, kbId = Some kb /\ kb <> "".
Proof.
  unfold UseChat.sendMessage.
  destruct kbId as [kb|]; [|intros H; now contradiction H].
  destruct (String.eqb_spec (trim content) "") as [E|N];
    [intros H; now contradiction H|].
  destruct (String.eqb_spec kb "") as [E|N'];
    [intros H; now contradiction H|].
  intros _. split; [exact N|]. now exists kb.
Qed.

(** Every request of [sendMessage] carries the temperature of the
    call, or the default when there is none. *)
Lemma sendMessage_temperature (kbId : option string) (content : string)
      (temperature : option Q) (clock : Clock) (st : State) :
  Forall (fun req => req_temperature req = with_default temperature)
         (requests (snd (sendMessage kbId content temperature clock st))).
Proof.
  unfold UseChat.sendMessage.
  destruct kbId as [kb|]; [|constructor].
  destruct (_ || _); [constructor|].
  unfold sendChatMessage.
  destruct (settle _ _ _ _ _) as [outcome run].
  destruct (caller run) as [a s3].
  destruct outcome; repeat constructor.
Qed.
End UseChatFacts.

Lemma sendMessage_guard_witness :
  (JS.trim "   " = "" \/ Some "kb-1" = None \/ Some "kb-1" = Some "")
  /\ UseChat.sendMessage Wire.parse_frame Wire.no_numbers
       (fun _ => Examples.broken_stream)
       (Some "kb-1") "   " None Examples.clock UseChat.initial
     = (UseChat.initial, UseChat.no_effects).
Proof.
  split; [left; reflexivity|].
  apply sendMessage_guard. left. reflexivity.
Defined.

(** C9: when the stream breaks after a chunk has arrived, the call
    settles with the partial answer still in [streamingMessage]: the
    [catch] branch adds the error message but, unlike the branch of a
    successful answer, does not reset the streaming text. *)
Theorem sendMessage_failure_keeps_streaming_text :
  UseChat.sendMessage Wire.parse_frame Wire.no_numbers
    (fun _ => Examples.broken_stream)
    (Some "kb-1") "hello" None Examples.clock UseChat.initial
  = ({| UseChat.messages :=
          [ {| UseChat.id := "1"; UseChat.content := "hello";
               UseChat.role := UseChat.user; UseChat.sources := [];
               UseChat.timestamp := 1; UseChat.isError := false |};
            {| UseChat.id := "3"; UseChat.content := UseChat.error_text;
               UseChat.role := UseChat.assistant; UseChat.sources := [];
               UseChat.timestamp := 3; UseChat.isError := true |} ];
        UseChat.isLoading := false;
        UseChat.streamingMessage := "Hi" |},
     {| UseChat.requests :=
          [ {| Api.req_kbId := "kb-1"; Api.req_message := "hello";
               Api.req_temperature := (7 # 10)%Q |} ];
        UseChat.toasts := ["network error"] |}).
Proof. vm_compute. reflexivity. Qed.

(** ** components/ChatWindow.jsx *)

Section ChatWindowFacts.
Import JS Api ChatWindow.

Variable JSON_parse : string -> option json.
Variable Number_toString : Q -> string.
Variable server : Request -> Reply.
Variable kbId : option string.

Notation handle := (handle JSON_parse Number_toString server kbId).
Notation run := (run JSON_parse Number_toString server kbId).

Lemma Slider_in_range (pointer : Q) :
  exists t, Slider Slider_min Slider_max Slider_step pointer = [t]
            /\ allowed t.
Proof.
  unfold Slider. eexists. split; [reflexivity|]. split; [split|].
  - apply Q.le_max_l.
  - apply Q.max_lub; [discriminate | apply Q.le_min_l].
  - apply Q.max_case_strong.
    + intros x y Hxy [k Hk]. exists k. now rewrite <- Hxy.
    + intros _. exists 0%Z. reflexivity.
    + intros _. apply Q.min_case_strong.
      * intros x y Hxy [k Hk]. exists k. now rewrite <- Hxy.
      * intros _. exists 20%Z. reflexivity.
      * intros _. eexists. unfold Slider_min, Slider_step.
        rewrite Qplus_0_l, Qmult_comm. reflexivity.
Qed.

Lemma handle_in_range (ev : Event) (st : State) :
  in_range st ->
  in_range (fst (handle ev st))
  /\ Forall (fun req => allowed (req_temperature req))
            (UseChat.requests (snd (handle ev st))).
Proof.
  intros (t & Ht & Hr). destruct ev as [text | pointer | clock |]; simpl.
  - split; [exists t; auto | constructor].
  - split; [apply Slider_in_range | constructor].
  - unfold handleSubmit.
    destruct (_ || _); [split; [exists t; auto | constructor]|].
    pose proof (sendMessage_temperature JSON_parse Number_toString server
                  kbId (trim (inputMessage st)) (hd_error (temperature st))
                  clock (chat st)) as Hreq.
    destruct (UseChat.sendMessage _ _ _ _ _ _ _ _) as [chat' eff].
    simpl in *. split; [exists t; auto|].
    rewrite Ht in Hreq. simpl in Hreq.
    eapply Forall_impl; [|exact Hreq].
    intros req ->. exact Hr.
  - split; [exists t; auto | constructor].
Qed.

Lemma run_in_range (events : list Event) :
  forall st : State,
    in_range st ->
    Forall (fun req => allowed (req_temperature req)) (snd (run events st)).
Proof.
  induction events as [|ev rest IH]; intros st Hst; simpl; [constructor|].
  destruct (handle_in_range ev st Hst) as [Hst' Hreq].
  destruct (handle ev st) as [st' eff]. simpl in *.
  specialize (IH st' Hst').
  destruct (run rest st') as [st'' reqs]. simpl in *.
  apply Forall_app. split; assumption.
Qed.
End ChatWindowFacts.

(** C5: whatever the user types, slides and submits, every chat request
    of the window carries a temperature between 0 and 2 that is a whole
    number of tenths (the slider reports no other value, and the window
    starts at 0.7); and a call that supplies no temperature posts the
    default 0.7, both through [sendChatMessage] and through
    [sendMessage]. *)
Theorem chat_temperature_range_and_default :
  (forall JSON_parse Number_toString server kbId events,
      Forall (fun req =>
                (0 <= Api.req_temperature req /\ Api.req_temperature req <= 2)%Q
                /\ exists k : Z,
                    (Api.req_temperature req == inject_Z k * (1 # 10))%Q)
             (snd (ChatWindow.run JSON_parse Number_toString server kbId
                     events ChatWindow.initial)))
  /\ (forall JSON_parse (S : Type) onChunk server kbId message (s : S),
         Api.req_temperature
           (fst (Api.sendChatMessage JSON_parse S onChunk server
                   kbId message None s))
         = (7 # 10)%Q)
  /\ (forall JSON_parse Number_toString server kbId content clock st,
         Forall (fun req => Api.req_temperature req = (7 # 10)%Q)
                (UseChat.requests
                   (snd (UseChat.sendMessage JSON_parse Number_toString server
                           kbId content None clock st)))).
Proof.
  split; [|split].
  - intros. apply run_in_range.
    exists (7 # 10)%Q. split; [reflexivity|]. split; [split; discriminate|].
    exists 7%Z. reflexivity.
  - reflexivity.
  - intros. apply (sendMessage_temperature JSON_parse Number_toString server
                     kbId content None clock st).
Qed.

(** ** components/FileDropzone.jsx *)

Section FileDropzoneFacts.
Import JS FileDropzone.

Lemma includes_In (l : list string) (x : string) :
  includes l x = true <-> In x l.
Proof.
  unfold includes. rewrite existsb_exists. split.
  - intros (y & Hy & E). apply String.eqb_eq in E. now subst.
  - intros H. exists x. split; [exact H | apply String.eqb_refl].
Qed.

Lemma own_Some (k v : string) (table : list (string * string)) :
  own k table = Some v -> In (k, v) table.
Proof.
  induction table as [|[k' v'] t IH]; simpl; [discriminate|].
  destruct (String.eqb_spec k k') as [->|N].
  - intros [= ->]. now left.
  - intros H. right. now apply IH.
Qed.

Lemma own_None (k : string) (table : list (string * string)) :
  own k table = None <-> ~ In k (map fst table).
Proof.
  induction table as [|[k' v'] t IH]; simpl; [tauto|].
  destruct (String.eqb_spec k k') as [->|N].
  - split; [discriminate | intros H; exfalso; apply H; now left].
  - rewrite IH. split; [intros H [E|E]; [congruence | tauto] | tauto].
Qed.

(** [ALLOWED_TYPES[k]] is truthy exactly for the seven MIME types of
    the table and the names inherited from [Object.prototype]. *)
Lemma has_type_In (k : string) :
  has_type k = true <-> In k (map fst ALLOWED_TYPES ++ Object_prototype).
Proof.
  unfold has_type. rewrite in_app_iff.
  destruct (own k ALLOWED_TYPES) as [v|] eqn:E.
  - apply own_Some in E. split.
    + intros _. left. change k with (fst (k, v)). now apply in_map.
    + intros _. simpl in E.
      repeat (destruct E as [E|E]; [now inversion E|]). contradiction.
  - apply own_None in E. rewrite includes_In. tauto.
Qed.

Lemma unsupported_spec (file : File) :
  unsupported file = false
  <-> In (type file) (map fst ALLOWED_TYPES ++ Object_prototype)
      \/ In (extension (name file)) [".pdf"; ".docx"; ".txt"; ".pptx"; ".csv"].
Proof.
  unfold unsupported.
  rewrite andb_false_iff, !negb_false_iff, has_type_In, includes_In.
  simpl. tauto.
Qed.

Lemma validateFile_length (file : File) :
  List.length (validateFile file)
  = Nat.b2n (unsupported file) + Nat.b2n (too_large file).
Proof.
  unfold validateFile.
  destruct (unsupported file), (too_large file); reflexivity.
Qed.

Lemma accepted_spec (file : File) :
  accepted file = negb (0 <? List.length (validateFile file))%nat.
Proof. unfold accepted. now destruct (validateFile file). Qed.

Lemma forEach_spec (files : list File) :
  forall acc,
    forEach files acc
    = (fst acc ++ flat_map validateFile files,
       snd acc ++ filter accepted files).
Proof.
  induction files as [|f fs IH]; intros [errs valid]; simpl.
  - now rewrite !app_nil_r.
  - rewrite accepted_spec.
    destruct (0 <? List.length (validateFile f))%nat eqn:E; rewrite IH; simpl.
    + now rewrite <- app_assoc.
    + apply Nat.ltb_ge in E.
      destruct (validateFile f); [|simpl in E; lia].
      simpl. now rewrite <- app_assoc.
Qed.

Lemma flat_map_validateFile_length (files : list File) :
  List.length (flat_map validateFile files)
  = count unsupported files + count too_large files.
Proof.
  unfold count. induction files as [|f fs IH]; [reflexivity|].
  simpl. rewrite length_app, validateFile_length, IH.
  destruct (unsupported f), (too_large f); simpl; lia.
Qed.
End FileDropzoneFacts.

(** C4 (amended): [validateFile] finds nothing wrong exactly when the
    MIME type is a property of [ALLOWED_TYPES] or the lower-cased name
    ends, from its last dot, in one of the five extensions, and the size
    is at most 20 MB; [handleFiles] records every error of every file,
    one for an unsupported type and one for an excessive size, and calls
    [onFilesSelected] once with the accepted files when there is at
    least one, and not at all otherwise. *)
Theorem validateFile_handleFiles
        (file : FileDropzone.File) (files : list FileDropzone.File)
        (st : FileDropzone.State) :
  (FileDropzone.validateFile file = []
   <-> (In (FileDropzone.type file)
           (map fst FileDropzone.ALLOWED_TYPES ++ FileDropzone.Object_prototype)
        \/ In (FileDropzone.extension (FileDropzone.name file))
              [".pdf"; ".docx"; ".txt"; ".pptx"; ".csv"])
       /\ (FileDropzone.size file <= 20 * 1024 * 1024)%N)
  /\ FileDropzone.errors (fst (FileDropzone.handleFiles files st))
     = flat_map FileDropzone.validateFile files
  /\ List.length (FileDropzone.errors (fst (FileDropzone.handleFiles files st)))
     = FileDropzone.count FileDropzone.unsupported files
       + FileDropzone.count FileDropzone.too_large files
  /\ snd (FileDropzone.handleFiles files st)
     = match filter FileDropzone.accepted files with
       | [] => []
       | valid => [valid]
       end.
Proof.
  assert (Herr : FileDropzone.errors (fst (FileDropzone.handleFiles files st))
                 = flat_map FileDropzone.validateFile files).
  { unfold FileDropzone.handleFiles. rewrite forEach_spec. simpl.
    now destruct (filter FileDropzone.accepted files). }
  split; [|split; [exact Herr | split]].
  - rewrite <- unsupported_spec. unfold FileDropzone.validateFile.
    unfold FileDropzone.too_large, FileDropzone.MAX_FILE_SIZE.
    destruct (FileDropzone.unsupported file);
      destruct (N.ltb_spec (20 * 1024 * 1024) (FileDropzone.size file));
      simpl; split; try discriminate; try tauto; intros [? ?]; try discriminate; lia.
  - rewrite Herr. apply flat_map_validateFile_length.
  - unfold FileDropzone.handleFiles. rewrite forEach_spec. simpl.
    now destruct (filter FileDropzone.accepted files).
Qed.

(** C4, as stated, fails on a file that is both of an unsupported type
    and too large: it is one rejected file, and two errors are
    recorded for it. *)
Lemma handleFiles_two_errors_for_one_file :
  FileDropzone.count FileDropzone.rejected [Examples.installer] = 1
  /\ FileDropzone.errors
       (fst (FileDropzone.handleFiles [Examples.installer]
               Examples.empty_dropzone))
     = [ "setup.exe: Unsupported file type. Allowed: PDF, DOCX, TXT, PPTX, CSV";
         "setup.exe: File too large. Maximum size: 20MB" ]
  /\ List.length
       (FileDropzone.errors
          (fst (FileDropzone.handleFiles [Examples.installer]
                  Examples.empty_dropzone)))
     <> FileDropzone.count FileDropzone.rejected [Examples.installer].
Proof. vm_compute. repeat split; discriminate. Qed.

(** ** hooks/useTypewriter.js *)

Section UseTypewriterFacts.
Import JS UseTypewriter.

Lemma consistent_mount (text : string) : consistent text (mount text).
Proof.
  unfold mount, consistent.
  destruct (String.eqb_spec text "") as [->|N]; simpl; auto.
Qed.

Lemma consistent_fire (text : string) (h : Hook) :
  consistent text h -> consistent text (fire text h).
Proof.
  unfold consistent, fire.
  destruct (pending h) as [| | index] eqn:E; simpl.
  - now rewrite E.
  - intros [Hd Hc]. simpl. repeat split; auto. lia.
  - intros (Hd & Hi & Hc).
    destruct (Nat.ltb_spec index (String.length text)); simpl.
    + repeat split; auto. lia.
    + right. split; [|reflexivity].
      rewrite Hd. replace index with (String.length text) by lia.
      apply take_all.
Qed.

Lemma consistent_useTypewriter (text : string) (n : nat) :
  consistent text (useTypewriter text n).
Proof.
  induction n as [|n IH]; simpl;
    [apply consistent_mount | now apply consistent_fire].
Qed.

Lemma consistent_prefix (text : string) (h : Hook) :
  consistent text h -> exists rest, text = (displayText h ++ rest)%string.
Proof.
  unfold consistent. destruct (pending h) as [| | index].
  - intros [(-> & -> & _) | (-> & _)]; [now exists "" |].
    exists "". now rewrite append_nil_r.
  - intros [-> _]. now exists text.
  - intros (-> & _ & _). exists (drop index text). now rewrite take_drop.
Qed.

Lemma fire_grows (text : string) (h : Hook) :
  consistent text h ->
  String.length (displayText h) <= String.length (displayText (fire text h)).
Proof.
  unfold consistent, fire.
  destruct (pending h) as [| | index]; simpl; auto.
  intros (Hd & Hi & _).
  destruct (Nat.ltb_spec index (String.length text)); simpl; [|lia].
  rewrite Hd, !length_take. lia.
Qed.
(** A text that is not empty is typed out: one callback for the
    timer, one for each character, and one that notices the end. *)
Lemma useTypewriter_typing (text : string) (k : nat) :
  text <> "" ->
  k <= String.length text ->
  useTypewriter text (S k)
  = {| displayText := take k text; isComplete := false;
       pending := Interval k |}.
Proof.
  intros Hne. induction k as [|k IH]; intros Hk.
  - simpl. unfold mount.
    destruct (String.eqb_spec text "") as [E|_]; [contradiction|].
    now destruct text.
  - change (useTypewriter text (S (S k)))
      with (fire text (useTypewriter text (S k))).
    rewrite IH by lia. unfold fire. simpl.
    destruct (Nat.ltb_spec k (String.length text)); [|lia].
    now rewrite Nat.add_1_r.
Qed.

Lemma useTypewriter_completes (text : string) :
  text <> "" ->
  useTypewriter text (S (S (String.length text)))
  = {| displayText := text; isComplete := true; pending := Nothing |}.
Proof.
  intros Hne.
  change (useTypewriter text (S (S (String.length text))))
    with (fire text (useTypewriter text (S (String.length text)))).
  rewrite useTypewriter_typing by auto. unfold fire. simpl.
  rewrite Nat.ltb_irrefl. now rewrite take_all.
Qed.
End UseTypewriterFacts.

(** C8: after any number of callbacks, [displayText] is a prefix of
    the text, the next callback does not make it shorter, and once
    [isComplete] is set [displayText] is the whole text. *)
Theorem useTypewriter_prefix_monotone_complete (text : string) (n : nat) :
  (exists rest,
      text = (UseTypewriter.displayText (UseTypewriter.useTypewriter text n)
              ++ rest)%string)
  /\ String.length
       (UseTypewriter.displayText (UseTypewriter.useTypewriter text n))
     <= String.length
          (UseTypewriter.displayText (UseTypewriter.useTypewriter text (S n)))
  /\ (UseTypewriter.isComplete (UseTypewriter.useTypewriter text n) = false
      \/ UseTypewriter.displayText (UseTypewriter.useTypewriter text n) = text).
Proof.
  pose proof (consistent_useTypewriter text n) as Hc.
  set (h := UseTypewriter.useTypewriter text n) in *.
  change (UseTypewriter.useTypewriter text (S n))
    with (UseTypewriter.fire text h).
  split; [now apply consistent_prefix|].
  split; [now apply fire_grows|].
  unfold UseTypewriter.consistent in Hc.
  destruct (UseTypewriter.pending h); intuition.
Qed.

(** ** components/MessageBubble.jsx *)

Section MessageBubbleFacts.
Import JS MessageBubble.

Lemma prefix_lacks (c : ascii) (d s : string) :
  lacks c s = true -> String.prefix (String c d) s = false.
Proof.
  destruct s as [|x s]; simpl; [reflexivity|].
  destruct (ascii_dec c x) as [->|N]; [|reflexivity].
  now rewrite Ascii.eqb_refl.
Qed.

Lemma replace_from_lacks (c : ascii) (d before after : string) (fuel : nat) :
  forall s : string,
    lacks c s = true ->
    replace_from fuel (String c d) before after s = s.
Proof.
  induction fuel as [|fuel IH]; intros s Hs; simpl; [reflexivity|].
  unfold match_here. rewrite (prefix_lacks c d s Hs).
  destruct s as [|x s]; [reflexivity|].
  simpl in Hs. apply andb_true_iff in Hs. destruct Hs as [_ Hs].
  now rewrite (IH s Hs).
Qed.





Lemma replace_newlines_lacks (s : string) :
  lacks newline s = true -> replace_newlines s = s.
Proof.
  induction s as [|x s IH]; simpl; [reflexivity|].
  intros H. apply andb_true_iff in H. destruct H as [Hx Hs].
  unfold is_newline. apply negb_true_iff in Hx. rewrite Hx.
  now rewrite (IH Hs).
Qed.
End MessageBubbleFacts.

(** C10: [formatContent] returns a content without asterisk, backquote
    and line feed as it is, and it gives one result for an input. *)
Theorem formatContent_plain_identity (content other r1 r2 : string) :
  MessageBubble.plain content = true ->
  MessageBubble.formatContent other = r1 ->
  MessageBubble.formatContent other = r2 ->
  MessageBubble.formatContent content = content /\ r1 = r2.
Proof.
  intros Hp H1 H2. split; [|congruence].
  unfold MessageBubble.plain in Hp.
  apply andb_true_iff in Hp. destruct Hp as [Hp Hn].
  apply andb_true_iff in Hp. destruct Hp as [Ha Hb].
  unfold MessageBubble.formatContent, MessageBubble.replace_delimited.
  rewrite (replace_from_lacks "*" "*" _ _ _ content Ha).
  rewrite (replace_from_lacks "*" "" _ _ _ content Ha).
  rewrite (replace_from_lacks "`" "" _ _ _ content Hb).
  now apply replace_newlines_lacks.
Qed.

Lemma formatContent_plain_identity_witness :
  MessageBubble.plain "Clause 4 (termination): 30 days." = true
  /\ MessageBubble.formatContent "a **b** c" = "a <strong>b</strong> c"
  /\ MessageBubble.formatContent "Clause 4 (termination): 30 days."
     = "Clause 4 (termination): 30 days.".
Proof.
  split; [reflexivity|]. split; [reflexivity|].
  exact (proj1 (formatContent_plain_identity
                  "Clause 4 (termination): 30 days." "a **b** c"
                  "a <strong>b</strong> c" "a <strong>b</strong> c"
                  eq_refl eq_refl eq_refl)).
Defined.

(** ** The text splitter *)

Section SplitterFacts.
Import JS Splitter.





Section Sizing.
Variables chunkSize overlap : nat.
Hypothesis valid : overlap < chunkSize.





End Sizing.
End SplitterFacts.




(** ** The upload response *)



(* ================================================================== *)
(** * Part III: further properties of the code                         *)
(* ================================================================== *)

(** ** utils/api.js: the stream, read by read *)

Section StreamMore.
Import JS Api ChatStream StreamText.

Variable JSON_parse : string -> option json.
Variable S : Type.
Variable onChunk : json -> S -> S.

Lemma glue_app (xs ys : list string) :
  glue (xs ++ ys) = (glue xs ++ glue ys)%string.
Proof.
  induction xs as [|x xs IH]; simpl; [reflexivity|].
  now rewrite IH, append_assoc.
Qed.

Lemma no_newline_app (a b : string) :
  no_newline a = true -> no_newline b = true -> no_newline (a ++ b) = true.
Proof.
  induction a as [|c a IH]; simpl; [auto|].
  intros Ha Hb. apply andb_true_iff in Ha. destruct Ha as [Hc Ha].
  now rewrite Hc, IH.
Qed.

Lemma or_else_not_empty (a b : string) : b <> "" -> or_else a b <> "".
Proof.
  unfold or_else. destruct (String.eqb_spec a ""); auto.
Qed.

(** How a body settles, in terms of the lines of its whole text. *)
Lemma settle_body (reads : list string) (e : ending) (r : Run S) :
  settle JSON_parse S onChunk (Body reads e) r
  = match for_lines JSON_parse S onChunk (complete_lines (glue reads)) r with
    | (Return, r') => (Resolved, r')
    | (Continue, r') => (at_end e, r')
    end.
Proof. simpl. now rewrite read_loop_whole. Qed.

(** How the body of a well-formed stream settles. *)
Lemma settle_frames (frames : list (string * json)) (reads : list string)
      (e : ending) (r : Run S) :
  Forall (well_formed JSON_parse) frames ->
  glue reads = wire (map fst frames) ->
  settle JSON_parse S onChunk (Body reads e) r
  = (if has_done (map snd frames) then Resolved else at_end e,
     {| caller := fold_left (fun s c => onChunk c s)
                            (chunks_forwarded (map snd frames)) (caller r);
        warnings := warnings r ++ payloads_warned frames |}).
Proof.
  intros Hwf Hwire. rewrite settle_body, Hwire, complete_lines_wire.
  - rewrite (for_lines_frames JSON_parse S onChunk frames Hwf).
    now destruct (has_done (map snd frames)).
  - clear -Hwf. induction Hwf as [|f fs Hf _ IH]; constructor; [|exact IH].
    apply Hf.
Qed.

Lemma read_loop_message (reads : list string) (e : ending) :
  forall (buffer : string) (r : Run S) (m : string),
    fst (read_loop JSON_parse S onChunk reads e buffer r) = Rejected m ->
    m <> "".
Proof.
  induction reads as [|v rest IH]; intros buffer r m; simpl.
  - destruct e as [|m']; [discriminate|].
    intros [= <-]. now apply or_else_not_empty.
  - destruct (for_lines _ _ _ _ r) as [[|] r']; [apply IH | discriminate].
Qed.

Lemma complete_lines_text_of_lines (lines : list string) :
  Forall (fun l => no_newline l = true) lines ->
  complete_lines (text_of_lines lines) = lines.
Proof.
  unfold complete_lines, text_of_lines.
  induction 1 as [|l ls Hl _ IH]; [reflexivity|].
  cbn [map glue]. rewrite append_assoc. cbn [append].
  rewrite split_newline_line by exact Hl.
  pose proof (split_newline_not_nil
                (glue (map (fun l0 => (l0 ++ String newline "")%string) ls)))
    as Hne.
  destruct (split_newline _) eqn:E; [congruence|].
  rewrite <- IH. reflexivity.
Qed.

Lemma for_lines_data_only (lines : list string) :
  forall r : Run S,
    for_lines JSON_parse S onChunk (filter is_data_line lines) r
    = for_lines JSON_parse S onChunk lines r.
Proof.
  induction lines as [|l ls IH]; intros r; [reflexivity|].
  cbn [filter]. unfold is_data_line at 1.
  destruct (startsWith "data: " l) eqn:E.
  - cbn [for_lines].
    destruct (process_line JSON_parse S onChunk l r) as [[|] r'];
      [apply IH | reflexivity].
  - cbn [for_lines]. unfold process_line. rewrite E. apply IH.
Qed.
End StreamMore.

(** X1: the way the network cuts the body into reads does not matter:
    two sequences of reads with the same text make [sendChatMessage]
    post the same request, call [onChunk] the same way and settle the
    same way. *)
Theorem sendChatMessage_any_cut
        (JSON_parse : string -> option JS.json) (S : Type)
        (onChunk : JS.json -> S -> S)
        (reads1 reads2 : list string) (e : Api.ending)
        (kbId message : string) (temperature : option Q) (s : S) :
  JS.glue reads1 = JS.glue reads2 ->
  Api.sendChatMessage JSON_parse S onChunk (fun _ => Api.Body reads1 e)
    kbId message temperature s
  = Api.sendChatMessage JSON_parse S onChunk (fun _ => Api.Body reads2 e)
      kbId message temperature s.
Proof.
  intros H. unfold Api.sendChatMessage. f_equal.
  now rewrite !settle_body, H.
Qed.

Lemma sendChatMessage_any_cut_witness :
  JS.glue Samples.whole = JS.glue Samples.pieces
  /\ Api.sendChatMessage Wire.parse_frame (list JS.json) ChatStream.record_call
       (fun _ => Api.Body Samples.whole Api.Eof) "kb" "hi" None []
     = Api.sendChatMessage Wire.parse_frame (list JS.json) ChatStream.record_call
         (fun _ => Api.Body Samples.pieces Api.Eof) "kb" "hi" None [].
Proof.
  assert (H : JS.glue Samples.whole = JS.glue Samples.pieces)
    by (vm_compute; reflexivity).
  split; [exact H|].
  exact (sendChatMessage_any_cut Wire.parse_frame (list JS.json)
           ChatStream.record_call Samples.whole Samples.pieces Api.Eof
           "kb" "hi" None [] H).
Defined.

(** X2: what follows the last line feed of the body is never looked
    at: a last piece without a line feed, such as a final frame that is
    not terminated, changes nothing. *)
Theorem sendChatMessage_drops_unfinished_line
        (JSON_parse : string -> option JS.json) (S : Type)
        (onChunk : JS.json -> S -> S)
        (reads : list string) (tail : string) (e : Api.ending)
        (kbId message : string) (temperature : option Q) (s : S) :
  JS.no_newline tail = true ->
  Api.sendChatMessage JSON_parse S onChunk
    (fun _ => Api.Body (reads ++ [tail]) e) kbId message temperature s
  = Api.sendChatMessage JSON_parse S onChunk (fun _ => Api.Body reads e)
      kbId message temperature s.
Proof.
  intros Ht. unfold Api.sendChatMessage. f_equal.
  rewrite !settle_body, glue_app. simpl JS.glue. rewrite append_nil_r.
  rewrite complete_lines_app.
  assert (Hn : JS.complete_lines (JS.unfinished (JS.glue reads) ++ tail) = []).
  { unfold JS.complete_lines.
    rewrite split_newline_single; [reflexivity|].
    apply no_newline_app; [apply no_newline_unfinished | exact Ht]. }
  now rewrite Hn, app_nil_r.
Qed.

Lemma sendChatMessage_drops_unfinished_line_witness :
  JS.no_newline ("data: " ++ Wire.dq "{'content':'lost'}") = true
  /\ Api.sendChatMessage Wire.parse_frame (list JS.json) ChatStream.record_call
       (fun _ => Api.Body (Samples.whole
                           ++ [("data: " ++ Wire.dq "{'content':'lost'}")%string])
                          Api.Eof) "kb" "hi" None []
     = Api.sendChatMessage Wire.parse_frame (list JS.json) ChatStream.record_call
         (fun _ => Api.Body Samples.whole Api.Eof) "kb" "hi" None [].
Proof.
  assert (H : JS.no_newline ("data: " ++ Wire.dq "{'content':'lost'}") = true)
    by reflexivity.
  split; [exact H|].
  exact (sendChatMessage_drops_unfinished_line Wire.parse_frame (list JS.json)
           ChatStream.record_call Samples.whole _ Api.Eof "kb" "hi" None [] H).
Defined.

(** X3: once the [done] frame of a well-formed stream has been read,
    nothing that comes after it matters: more reads, of any content,
    and a failure of the connection leave the calls of [onChunk] and
    the resolved promise as they are. *)
Theorem sendChatMessage_done_ends_stream
        (JSON_parse : string -> option JS.json) (S : Type)
        (onChunk : JS.json -> S -> S)
        (frames : list (string * JS.json)) (reads later : list string)
        (e : Api.ending)
        (kbId message : string) (temperature : option Q) (s : S) :
  Forall (ChatStream.well_formed JSON_parse) frames ->
  ChatStream.has_done (map snd frames) = true ->
  JS.glue reads = ChatStream.wire (map fst frames) ->
  Api.sendChatMessage JSON_parse S onChunk
    (fun _ => Api.Body (reads ++ later) e) kbId message temperature s
  = Api.sendChatMessage JSON_parse S onChunk (fun _ => Api.Body reads Api.Eof)
      kbId message temperature s
  /\ fst (snd (Api.sendChatMessage JSON_parse S onChunk
                 (fun _ => Api.Body (reads ++ later) e)
                 kbId message temperature s)) = Api.Resolved.
Proof.
  intros Hwf Hdone Hwire.
  assert (Hlines :
    Api.for_lines JSON_parse S onChunk (JS.complete_lines (JS.glue reads))
      {| Api.caller := s; Api.warnings := [] |}
    = (Api.Return,
       {| Api.caller := fold_left (fun st c => onChunk c st)
                          (ChatStream.chunks_forwarded (map snd frames)) s;
          Api.warnings := [] ++ ChatStream.payloads_warned frames |})).
  { rewrite Hwire, complete_lines_wire.
    - rewrite (for_lines_frames JSON_parse S onChunk frames Hwf).
      now rewrite Hdone.
    - clear -Hwf. induction Hwf as [|f fs Hf _ IH]; constructor; [|exact IH].
      apply Hf. }
  unfold Api.sendChatMessage. cbn [snd fst].
  rewrite !settle_body, glue_app, complete_lines_app, for_lines_app.
  rewrite Hlines. split; reflexivity.
Qed.

Lemma sendChatMessage_done_ends_stream_witness :
  Forall (ChatStream.well_formed Wire.parse_frame) Samples.answer_frames
  /\ ChatStream.has_done (map snd Samples.answer_frames) = true
  /\ JS.glue Samples.answer_reads
     = ChatStream.wire (map fst Samples.answer_frames)
  /\ Api.sendChatMessage Wire.parse_frame (list JS.json) ChatStream.record_call
       (fun _ => Api.Body (Samples.answer_reads ++ ["data: garbage"])
                          (Api.ReadFails "reset"))
       "kb" "hi" None []
     = Api.sendChatMessage Wire.parse_frame (list JS.json) ChatStream.record_call
         (fun _ => Api.Body Samples.answer_reads Api.Eof) "kb" "hi" None []
  /\ fst (snd (Api.sendChatMessage Wire.parse_frame (list JS.json)
                 ChatStream.record_call
                 (fun _ => Api.Body (Samples.answer_reads ++ ["data: garbage"])
                                    (Api.ReadFails "reset"))
                 "kb" "hi" None [])) = Api.Resolved.
Proof.
  assert (Hwf : Forall (ChatStream.well_formed Wire.parse_frame)
                       Samples.answer_frames).
  { repeat constructor; try (vm_compute; reflexivity); vm_compute; discriminate. }
  assert (Hd : ChatStream.has_done (map snd Samples.answer_frames) = true)
    by reflexivity.
  assert (Hw : JS.glue Samples.answer_reads
               = ChatStream.wire (map fst Samples.answer_frames))
    by (vm_compute; reflexivity).
  split; [exact Hwf|]. split; [exact Hd|]. split; [exact Hw|].
  exact (sendChatMessage_done_ends_stream Wire.parse_frame (list JS.json)
           ChatStream.record_call Samples.answer_frames Samples.answer_reads
           ["data: garbage"] (Api.ReadFails "reset") "kb" "hi" None []
           Hwf Hd Hw).
Defined.

(** X4: when [sendChatMessage] rejects, the error it throws has a
    message that is not empty, whatever the server did. *)
Theorem sendChatMessage_rejects_with_message
        (JSON_parse : string -> option JS.json) (S : Type)
        (onChunk : JS.json -> S -> S) (server : Api.Request -> Api.Reply)
        (kbId message : string) (temperature : option Q) (s : S)
        (m : string) :
  fst (snd (Api.sendChatMessage JSON_parse S onChunk server
              kbId message temperature s)) = Api.Rejected m ->
  m <> "".
Proof.
  unfold Api.sendChatMessage. cbn [snd].
  destruct (server _) as [m' | d | | reads e]; simpl.
  - intros [= <-]. now apply or_else_not_empty.
  - intros [= <-]. now apply or_else_not_empty.
  - intros [= <-]. discriminate.
  - apply read_loop_message.
Qed.

Lemma sendChatMessage_rejects_with_message_witness :
  fst (snd (Api.sendChatMessage Wire.parse_frame (list JS.json)
              ChatStream.record_call (fun _ => Api.NotOk (Some ""))
              "kb" "hi" None [])) = Api.Rejected "Chat request failed"
  /\ "Chat request failed" <> "".
Proof.
  assert (H : fst (snd (Api.sendChatMessage Wire.parse_frame (list JS.json)
                          ChatStream.record_call (fun _ => Api.NotOk (Some ""))
                          "kb" "hi" None []))
              = Api.Rejected "Chat request failed") by reflexivity.
  split; [exact H|].
  exact (sendChatMessage_rejects_with_message Wire.parse_frame (list JS.json)
           ChatStream.record_call (fun _ => Api.NotOk (Some ""))
           "kb" "hi" None [] "Chat request failed" H).
Defined.

(** X5: only the lines that start with [data: ] count: a body made of
    whole lines is treated like the body made of its [data: ] lines
    alone, so comments, [event:] lines and empty lines have no
    effect. *)
Theorem sendChatMessage_reads_data_lines_only
        (JSON_parse : string -> option JS.json) (S : Type)
        (onChunk : JS.json -> S -> S)
        (lines : list string) (e : Api.ending)
        (kbId message : string) (temperature : option Q) (s : S) :
  Forall (fun l => JS.no_newline l = true) lines ->
  Api.sendChatMessage JSON_parse S onChunk
    (fun _ => Api.Body [StreamText.text_of_lines lines] e)
    kbId message temperature s
  = Api.sendChatMessage JSON_parse S onChunk
      (fun _ => Api.Body
                  [StreamText.text_of_lines
                     (filter StreamText.is_data_line lines)] e)
      kbId message temperature s.
Proof.
  intros Hl. unfold Api.sendChatMessage. f_equal.
  rewrite !settle_body. simpl JS.glue. rewrite !append_nil_r.
  rewrite !complete_lines_text_of_lines.
  - now rewrite for_lines_data_only.
  - clear -Hl. induction Hl as [|l ls H _ IH]; simpl; [constructor|].
    destruct (StreamText.is_data_line l); [constructor|]; assumption.
  - exact Hl.
Qed.

Lemma sendChatMessage_reads_data_lines_only_witness :
  Forall (fun l => JS.no_newline l = true)
         [": keep-alive"; "event: message";
          ("data: " ++ Wire.dq "{'content':'Hi'}")%string; ""]
  /\ Api.sendChatMessage Wire.parse_frame (list JS.json) ChatStream.record_call
       (fun _ => Api.Body
                   [StreamText.text_of_lines
                      [": keep-alive"; "event: message";
                       ("data: " ++ Wire.dq "{'content':'Hi'}")%string; ""]]
                   Api.Eof) "kb" "hi" None []
     = Api.sendChatMessage Wire.parse_frame (list JS.json) ChatStream.record_call
         (fun _ => Api.Body
                     [StreamText.text_of_lines
                        (filter StreamText.is_data_line
                           [": keep-alive"; "event: message";
                            ("data: " ++ Wire.dq "{'content':'Hi'}")%string; ""])]
                     Api.Eof) "kb" "hi" None [].
Proof.
  assert (H : Forall (fun l => JS.no_newline l = true)
                [": keep-alive"; "event: message";
                 ("data: " ++ Wire.dq "{'content':'Hi'}")%string; ""])
    by (repeat constructor).
  split; [exact H|].
  exact (sendChatMessage_reads_data_lines_only Wire.parse_frame (list JS.json)
           ChatStream.record_call _ Api.Eof "kb" "hi" None [] H).
Defined.

(** X6: a body that ends normally resolves the promise, whatever its
    text is: no frame, well formed or not, makes [sendChatMessage]
    reject. *)
Theorem sendChatMessage_resolves_on_end_of_stream
        (JSON_parse : string -> option JS.json) (S : Type)
        (onChunk : JS.json -> S -> S)
        (reads : list string)
        (kbId message : string) (temperature : option Q) (s : S) :
  fst (snd (Api.sendChatMessage JSON_parse S onChunk
              (fun _ => Api.Body reads Api.Eof) kbId message temperature s))
  = Api.Resolved.
Proof. apply read_loop_eof_resolves. Qed.

(** ** utils/api.js: the progress of an upload *)



(** ** hooks/useChat.js and components/ChatWindow.jsx *)

Section TrimFacts.
Import JS.

Lemma trimEnd_idempotent (s : string) : trimEnd (trimEnd s) = trimEnd s.
Proof.
  induction s as [|c s IH]; [reflexivity|].
  simpl. destruct (trimEnd s) as [|d r] eqn:E.
  - destruct (is_whitespace c) eqn:Hc; [reflexivity|].
    simpl. now rewrite Hc.
  - simpl. simpl in IH. now rewrite IH.
Qed.

Lemma trimEnd_keeps_head (c : ascii) (r : string) :
  is_whitespace c = false -> exists r', trimEnd (String c r) = String c r'.
Proof.
  intros Hc. simpl. destruct (trimEnd r) as [|d r'].
  - rewrite Hc. now exists "".
  - now exists (String d r').
Qed.

Lemma trimStart_head (s : string) :
  trimStart s = ""
  \/ exists c r, trimStart s = String c r /\ is_whitespace c = false.
Proof.
  induction s as [|c s IH]; [now left|].
  simpl. destruct (is_whitespace c) eqn:Hc; [exact IH|].
  right. now exists c, s.
Qed.

Lemma trim_idempotent (s : string) : trim (trim s) = trim s.
Proof.
  unfold trim. destruct (trimStart_head s) as [E | (c & r & E & Hc)].
  - rewrite E. reflexivity.
  - rewrite E. destruct (trimEnd_keeps_head c r Hc) as [r' Hr].
    rewrite Hr. simpl trimStart. rewrite Hc. rewrite <- Hr.
    apply trimEnd_idempotent.
Qed.
End TrimFacts.

Section ChatMore.
Import JS Api UseChat ChatStream.

Variable JSON_parse : string -> option json.
Variable Number_toString : Q -> string.

Lemma fold_onChunk (cs : list json) :
  forall (acc : string) (st : State),
    fst (fold_left (fun s c => UseChat.onChunk Number_toString c s) cs (acc, st))
    = (acc ++ glue (map (ToString Number_toString) cs))%string
    /\ messages (snd (fold_left (fun s c => UseChat.onChunk Number_toString c s)
                               cs (acc, st)))
       = messages st.
Proof.
  induction cs as [|c cs IH]; intros acc st; simpl.
  - now rewrite append_nil_r.
  - unfold UseChat.onChunk at 2 4. simpl.
    destruct (IH (acc ++ ToString Number_toString c)%string
                 (setStreamingMessage (acc ++ ToString Number_toString c) st))
      as [H1 H2].
    rewrite H1, H2, append_assoc. split; reflexivity.
Qed.

End ChatMore.

(** X8: for a well-formed stream that reaches its [done] frame or its
    normal end, [sendMessage] leaves exactly this behind: the user's
    message (trimmed) and an assistant message whose content is the
    forwarded chunks put together in the order of the stream, no
    loading flag, no streaming text, no toast, and one request that
    carries the content as it was given. *)
Theorem sendMessage_shows_the_streamed_answer
        (JSON_parse : string -> option JS.json) (Number_toString : Q -> string)
        (frames : list (string * JS.json)) (reads : list string)
        (e : Api.ending) (kb content : string) (temperature : option Q)
        (clock : UseChat.Clock) (st : UseChat.State) :
  JS.trim content <> "" -> kb <> "" ->
  Forall (ChatStream.well_formed JSON_parse) frames ->
  JS.glue reads = ChatStream.wire (map fst frames) ->
  ChatStream.has_done (map snd frames) = true \/ e = Api.Eof ->
  UseChat.sendMessage JSON_parse Number_toString (fun _ => Api.Body reads e)
    (Some kb) content temperature clock st
  = ({| UseChat.messages :=
          UseChat.messages st
          ++ [ {| UseChat.id := JS.Date_toString (UseChat.t_user clock);
                  UseChat.content := JS.trim content;
                  UseChat.role := UseChat.user;
                  UseChat.sources := [];
                  UseChat.timestamp := UseChat.t_user clock;
                  UseChat.isError := false |};
               {| UseChat.id :=
                    (JS.Date_toString (UseChat.t_request clock) ++ "_assistant")%string;
                  UseChat.content :=
                    JS.glue (map (JS.ToString Number_toString)
                               (ChatStream.chunks_forwarded (map snd frames)));
                  UseChat.role := UseChat.assistant;
                  UseChat.sources := [];
                  UseChat.timestamp := UseChat.t_settled clock;
                  UseChat.isError := false |} ];
        UseChat.isLoading := false;
        UseChat.streamingMessage := "" |},
     {| UseChat.requests := [UseChat.request_of kb content temperature];
        UseChat.toasts := [] |}).
Proof.
  intros Hc Hk Hwf Hwire Hend. unfold UseChat.sendMessage.
  apply String.eqb_neq in Hc, Hk. rewrite Hc, Hk. cbn [orb].
  unfold Api.sendChatMessage.
  rewrite (settle_frames JSON_parse _ _ frames reads e _ Hwf Hwire).
  cbn [Api.caller].
  match goal with
  | |- context [fold_left ?f ?cs (?acc, ?s0)] =>
      destruct (fold_onChunk Number_toString cs acc s0) as [H1 H2];
      destruct (fold_left f cs (acc, s0)) as [assistantContent st3]
  end.
  simpl in H1, H2. subst assistantContent.
  assert (Hres : (if ChatStream.has_done (map snd frames)
                  then Api.Resolved else ChatStream.at_end e) = Api.Resolved).
  { destruct Hend as [-> | ->]; [reflexivity|].
    now destruct (ChatStream.has_done (map snd frames)). }
  rewrite Hres.
  unfold UseChat.setIsLoading, UseChat.setStreamingMessage, UseChat.setMessages.
  cbn [UseChat.messages UseChat.isLoading UseChat.streamingMessage].
  rewrite H2. unfold UseChat.addMessage, UseChat.setMessages. simpl.
  rewrite <- app_assoc. reflexivity.
Qed.

Lemma sendMessage_shows_the_streamed_answer_witness :
  JS.trim " hello " <> "" /\ "kb-1" <> ""
  /\ Forall (ChatStream.well_formed Wire.parse_frame) Samples.answer_frames
  /\ JS.glue Samples.answer_reads
     = ChatStream.wire (map fst Samples.answer_frames)
  /\ (ChatStream.has_done (map snd Samples.answer_frames) = true
      \/ Api.ReadFails "reset" = Api.Eof)
  /\ UseChat.messages
       (fst (UseChat.sendMessage Wire.parse_frame Wire.no_numbers
               (fun _ => Api.Body Samples.answer_reads (Api.ReadFails "reset"))
               (Some "kb-1") " hello " None Examples.clock UseChat.initial))
     = [ {| UseChat.id := "1"; UseChat.content := "hello";
            UseChat.role := UseChat.user; UseChat.sources := [];
            UseChat.timestamp := 1; UseChat.isError := false |};
         {| UseChat.id := "2_assistant"; UseChat.content := "Hello";
            UseChat.role := UseChat.assistant; UseChat.sources := [];
            UseChat.timestamp := 3; UseChat.isError := false |} ].
Proof.
  assert (H1 : JS.trim " hello " <> "") by (vm_compute; discriminate).
  assert (H2 : "kb-1" <> "") by discriminate.
  assert (H3 : Forall (ChatStream.well_formed Wire.parse_frame)
                      Samples.answer_frames).
  { repeat constructor; try (vm_compute; reflexivity); vm_compute; discriminate. }
  assert (H4 : JS.glue Samples.answer_reads
               = ChatStream.wire (map fst Samples.answer_frames))
    by (vm_compute; reflexivity).
  assert (H5 : ChatStream.has_done (map snd Samples.answer_frames) = true
               \/ Api.ReadFails "reset" = Api.Eof) by (left; reflexivity).
  split; [exact H1|]. split; [exact H2|]. split; [exact H3|].
  split; [exact H4|]. split; [exact H5|].
  rewrite (sendMessage_shows_the_streamed_answer Wire.parse_frame
             Wire.no_numbers Samples.answer_frames Samples.answer_reads
             (Api.ReadFails "reset") "kb-1" " hello " None Examples.clock
             UseChat.initial H1 H2 H3 H4 H5).
  vm_compute. reflexivity.
Defined.



Section ChatLogFacts.
Import JS Api UseChat ChatLog.

Variable JSON_parse : string -> option json.
Variable Number_toString : Q -> string.
Variable server : Request -> Reply.
Variable kbId : option string.



End ChatLogFacts.


(** X11: a submit of the chat window with something other than white
    space in the input, a knowledge base and nothing loading empties
    the input, posts the trimmed input, and shows that same text in the
    user's bubble. *)
Theorem handleSubmit_posts_what_it_shows
        (JSON_parse : string -> option JS.json) (Number_toString : Q -> string)
        (server : Api.Request -> Api.Reply) (kb : string)
        (clock : UseChat.Clock) (st : ChatWindow.State) :
  JS.trim (ChatWindow.inputMessage st) <> "" -> kb <> "" ->
  UseChat.isLoading (ChatWindow.chat st) = false ->
  ChatWindow.inputMessage
    (fst (ChatWindow.handleSubmit JSON_parse Number_toString server (Some kb)
            clock st)) = ""
  /\ map Api.req_message
       (UseChat.requests
          (snd (ChatWindow.handleSubmit JSON_parse Number_toString server
                  (Some kb) clock st)))
     = [JS.trim (ChatWindow.inputMessage st)]
  /\ exists u a : UseChat.Message,
      UseChat.messages
        (ChatWindow.chat
           (fst (ChatWindow.handleSubmit JSON_parse Number_toString server
                   (Some kb) clock st)))
      = UseChat.messages (ChatWindow.chat st) ++ [u; a]
      /\ UseChat.role u = UseChat.user
      /\ UseChat.content u = JS.trim (ChatWindow.inputMessage st).
Proof.
  intros Hc Hk Hl. unfold ChatWindow.handleSubmit.
  apply String.eqb_neq in Hc. rewrite Hc, Hl. cbn [orb].
  apply String.eqb_neq in Hc.
  assert (Hc' : JS.trim (JS.trim (ChatWindow.inputMessage st)) <> "")
    by now rewrite trim_idempotent.
  pose proof (sendMessage_settled JSON_parse Number_toString server kb
                (JS.trim (ChatWindow.inputMessage st))
                (hd_error (ChatWindow.temperature st)) clock
                (ChatWindow.chat st) Hc' Hk) as H.
  destruct (UseChat.sendMessage _ _ _ _ _ _ _ _) as [chat' eff].
  destruct H as (Hreq & _ & answer & streamed & Hm & _).
  cbn [fst snd ChatWindow.inputMessage ChatWindow.chat].
  split; [reflexivity|]. split; [now rewrite Hreq|].
  eexists; exists answer. split; [exact Hm|].
  split; [reflexivity|]. apply trim_idempotent.
Qed.

Lemma handleSubmit_posts_what_it_shows_witness :
  JS.trim (ChatWindow.inputMessage
             (fst (ChatWindow.handle Wire.parse_frame Wire.no_numbers
                     (fun _ => Examples.broken_stream) (Some "kb-1")
                     (ChatWindow.Change "  hello ") ChatWindow.initial)))
  <> ""
  /\ "kb-1" <> ""
  /\ ChatWindow.inputMessage
       (fst (ChatWindow.handleSubmit Wire.parse_frame Wire.no_numbers
               (fun _ => Examples.broken_stream) (Some "kb-1") Examples.clock
               (fst (ChatWindow.handle Wire.parse_frame Wire.no_numbers
                       (fun _ => Examples.broken_stream) (Some "kb-1")
                       (ChatWindow.Change "  hello ") ChatWindow.initial))))
     = "".
Proof.
  assert (H1 : JS.trim (ChatWindow.inputMessage
             (fst (ChatWindow.handle Wire.parse_frame Wire.no_numbers
                     (fun _ => Examples.broken_stream) (Some "kb-1")
                     (ChatWindow.Change "  hello ") ChatWindow.initial)))
               <> "") by (vm_compute; discriminate).
  assert (H2 : "kb-1" <> "") by discriminate.
  split; [exact H1|]. split; [exact H2|].
  exact (proj1 (handleSubmit_posts_what_it_shows Wire.parse_frame
                  Wire.no_numbers (fun _ => Examples.broken_stream) "kb-1"
                  Examples.clock _ H1 H2 eq_refl)).
Defined.

(** ** components/FileDropzone.jsx: selecting and removing files *)

Section DropzoneFacts.
Import JS FileDropzone Dropzone.

Lemma accepted_true (file : File) :
  accepted file = true <-> validateFile file = [].
Proof.
  unfold accepted. destruct (validateFile file); split; congruence.
Qed.

Lemma filter_accepted_valid (files : list File) :
  Forall (fun f => validateFile f = []) (filter accepted files).
Proof.
  apply Forall_forall. intros f Hf. apply filter_In in Hf.
  now apply accepted_true.
Qed.

Lemma handleFiles_selection (files : list File) (st : State) :
  selectedFiles (fst (handleFiles files st))
  = match filter accepted files with
    | [] => selectedFiles st
    | valid => valid
    end
  /\ snd (handleFiles files st)
     = match filter accepted files with
       | [] => []
       | valid => [valid]
       end.
Proof.
  unfold handleFiles. rewrite forEach_spec. simpl.
  now destruct (filter accepted files).
Qed.

Lemma filter_index_from (i : nat) (files : list File) :
  forall k : nat,
    filter_index k (k + i) files = firstn i files ++ skipn (S i) files.
Proof.
  revert i. induction files as [|f fs IH]; intros i k.
  - now destruct i.
  - simpl. destruct i as [|i].
    + rewrite Nat.add_0_r, Nat.eqb_refl. clear IH.
      assert (H : forall l j, k < j -> filter_index j k l = l).
      { clear. induction l as [|x l IH]; intros j Hj; simpl; [reflexivity|].
        destruct (Nat.eqb_spec j k); [lia|]. rewrite IH by lia. reflexivity. }
      apply H. lia.
    + destruct (Nat.eqb_spec k (k + S i)); [lia|].
      replace (k + S i) with (S k + i) by lia.
      rewrite IH. reflexivity.
Qed.

Lemma Forall_firstn_skipn {A : Type} (P : A -> Prop) (l : list A) :
  Forall P l -> forall i j, Forall P (firstn i l ++ skipn j l).
Proof.
  intros H i j. apply Forall_app. split.
  - revert i. induction H as [|x l Hx _ IH]; intros [|i]; simpl;
      constructor; auto.
  - revert j. induction H as [|x l Hx Hl IH]; intros [|j]; simpl; auto.
Qed.

Lemma filter_index_valid (index : nat) (files : list File) :
  Forall (fun f => validateFile f = []) files ->
  Forall (fun f => validateFile f = []) (filter_index 0 index files).
Proof.
  intros H. pose proof (filter_index_from index files 0) as E.
  cbn [Nat.add] in E. rewrite E. clear E.
  now apply Forall_firstn_skipn.
Qed.

Lemma last_app_calls {A : Type} (xs ys : list A) (d : A) :
  last (xs ++ ys) d = last ys (last xs d).
Proof.
  destruct ys as [|y ys].
  - now rewrite app_nil_r.
  - rewrite last_app_ne by discriminate.
    generalize (last xs d). revert y.
    induction ys as [|z ys IH]; intros y d'; [reflexivity|].
    change (last (y :: z :: ys) d) with (last (z :: ys) d).
    change (last (y :: z :: ys) d') with (last (z :: ys) d').
    apply IH.
Qed.

(** One event keeps the selection valid and tells the parent about
    every change of it. *)
Lemma handle_reports (ev : Event) (st : State) :
  Forall (fun f => validateFile f = []) (selectedFiles st) ->
  Forall (fun f => validateFile f = []) (selectedFiles (fst (handle ev st)))
  /\ last (snd (handle ev st)) (selectedFiles st)
     = selectedFiles (fst (handle ev st)).
Proof.
  intros Hv.
  assert (Hfiles : forall files st0,
    selectedFiles st0 = selectedFiles st ->
    Forall (fun f => validateFile f = [])
           (selectedFiles (fst (handleFiles files st0)))
    /\ last (snd (handleFiles files st0)) (selectedFiles st)
       = selectedFiles (fst (handleFiles files st0))).
  { intros files st0 E. destruct (handleFiles_selection files st0) as [H1 H2].
    rewrite H1, H2. pose proof (filter_accepted_valid files) as Hf.
    destruct (filter accepted files); simpl.
    - rewrite E. auto.
    - auto. }
  destruct ev as [type | files | files | index |]; simpl.
  - unfold handleDrag.
    destruct (_ || _); [auto|]. destruct (String.eqb type "dragleave"); auto.
  - unfold handleDrop. destruct (has_first files); [|simpl; auto].
    now apply Hfiles.
  - unfold handleFileInput. destruct (has_first files); [|simpl; auto].
    now apply Hfiles.
  - split; [now apply filter_index_valid | reflexivity].
  - split; [constructor | reflexivity].
Qed.

Lemma run_reports (events : list Event) :
  forall st : State,
    Forall (fun f => validateFile f = []) (selectedFiles st) ->
    Forall (fun f => validateFile f = []) (selectedFiles (fst (run events st)))
    /\ last (snd (run events st)) (selectedFiles st)
       = selectedFiles (fst (run events st)).
Proof.
  induction events as [|ev rest IH]; intros st Hv; simpl; [auto|].
  destruct (handle_reports ev st Hv) as [Hv' Hl].
  destruct (handle ev st) as [st' calls]. simpl in Hv', Hl.
  destruct (IH st' Hv') as [Hv'' Hl'].
  destruct (run rest st') as [st'' calls']. simpl in *.
  split; [exact Hv''|]. now rewrite last_app_calls, Hl.
Qed.





End DropzoneFacts.

(** X12: through any sequence of drags, drops, file inputs, removals
    and clearings, every file the dropzone holds as selected has passed
    [validateFile], and the last list given to [onFilesSelected] is the
    selection the dropzone shows (none was given while the selection
    is still the empty one it starts with). *)
Theorem dropzone_selection_is_valid_and_reported
        (events : list Dropzone.Event) :
  Forall (fun f => FileDropzone.validateFile f = [])
         (FileDropzone.selectedFiles (fst (Dropzone.run events Dropzone.initial)))
  /\ last (snd (Dropzone.run events Dropzone.initial)) []
     = FileDropzone.selectedFiles (fst (Dropzone.run events Dropzone.initial)).
Proof. apply (run_reports events Dropzone.initial). constructor. Qed.

(** X13: [removeFile] takes out the file at the given position and
    nothing else, keeps the order of the others, leaves the errors as
    they are and reports the new list; a position beyond the end
    removes nothing. *)
Theorem removeFile_removes_one_position
        (index : nat) (st : FileDropzone.State) :
  FileDropzone.selectedFiles (fst (Dropzone.removeFile index st))
  = firstn index (FileDropzone.selectedFiles st)
    ++ skipn (S index) (FileDropzone.selectedFiles st)
  /\ List.length (FileDropzone.selectedFiles (fst (Dropzone.removeFile index st)))
     = (if (index <? List.length (FileDropzone.selectedFiles st))%nat
        then List.length (FileDropzone.selectedFiles st) - 1
        else List.length (FileDropzone.selectedFiles st))
  /\ FileDropzone.errors (fst (Dropzone.removeFile index st))
     = FileDropzone.errors st
  /\ snd (Dropzone.removeFile index st)
     = [FileDropzone.selectedFiles (fst (Dropzone.removeFile index st))].
Proof.
  unfold Dropzone.removeFile. cbn [fst snd FileDropzone.selectedFiles
                                     FileDropzone.errors].
  pose proof (filter_index_from index (FileDropzone.selectedFiles st) 0) as E.
  cbn [Nat.add] in E. rewrite E. clear E.
  split; [reflexivity|]. split; [|split; reflexivity].
  rewrite length_app, length_firstn, length_skipn.
  destruct (Nat.ltb_spec index (List.length (FileDropzone.selectedFiles st)));
    lia.
Qed.


(** X15: [handleFiles] replaces the selection by the valid files of the
    batch, in their order, and does not add to it; a batch without a
    valid file leaves the selection as it was, while the errors are
    those of the batch. *)
Theorem handleFiles_replaces_selection
        (files : list FileDropzone.File) (st : FileDropzone.State) :
  FileDropzone.selectedFiles (fst (FileDropzone.handleFiles files st))
  = match filter FileDropzone.accepted files with
    | [] => FileDropzone.selectedFiles st
    | valid => valid
    end
  /\ FileDropzone.dragActive (fst (FileDropzone.handleFiles files st))
     = FileDropzone.dragActive st.
Proof.
  split; [apply handleFiles_selection|].
  unfold FileDropzone.handleFiles. rewrite forEach_spec. simpl.
  now destruct (filter FileDropzone.accepted files).
Qed.

(** ** hooks/useTypewriter.js: the whole course of the effect *)

Section TypewriterMore.
Import JS UseTypewriter.

Lemma take_beyond (k : nat) (s : string) :
  String.length s <= k -> take k s = s.
Proof.
  revert s. induction k as [|k IH]; intros [|c s] H; simpl in *;
    try reflexivity; try lia.
  rewrite IH by lia. reflexivity.
Qed.

Lemma useTypewriter_done (text : string) (j : nat) :
  text <> "" ->
  useTypewriter text (S (S (String.length text)) + j)
  = {| displayText := text; isComplete := true; pending := Nothing |}.
Proof.
  intros Hne. induction j as [|j IH].
  - rewrite Nat.add_0_r. now apply useTypewriter_completes.
  - rewrite Nat.add_succ_r.
    change (useTypewriter text (S (S (S (String.length text)) + j)))
      with (fire text (useTypewriter text (S (S (String.length text)) + j))).
    now rewrite IH.
Qed.

Lemma useTypewriter_empty (n : nat) :
  useTypewriter "" n
  = {| displayText := ""; isComplete := false; pending := Nothing |}.
Proof.
  induction n as [|n IH]; [reflexivity|].
  change (useTypewriter "" (S n)) with (fire "" (useTypewriter "" n)).
  now rewrite IH.
Qed.
End TypewriterMore.

(** X16: the course of the typewriter in closed form: after [n]
    callbacks the hook shows the first [n - 1] characters of the text
    (all of it, once there are no more), and [isComplete] is set
    exactly when the text is not empty and at least two callbacks more
    than it has characters have run; for the empty text nothing is
    ever scheduled and [isComplete] is never set. *)
Theorem useTypewriter_closed_form (text : string) (n : nat) :
  UseTypewriter.displayText (UseTypewriter.useTypewriter text n)
  = JS.take (n - 1) text
  /\ UseTypewriter.isComplete (UseTypewriter.useTypewriter text n)
     = (negb (String.eqb text "") && (String.length text + 2 <=? n)%nat).
Proof.
  destruct (String.eqb_spec text "") as [->|Hne].
  - rewrite useTypewriter_empty. simpl. split; [|reflexivity].
    now destruct (n - 1).
  - cbn [negb andb].
    destruct (Nat.leb_spec (String.length text + 2) n) as [Hn|Hn].
    + replace n with (S (S (String.length text)) + (n - (String.length text + 2)))
        at 1 3 by lia.
      rewrite useTypewriter_done by exact Hne. simpl.
      split; [|reflexivity]. symmetry. apply take_beyond. lia.
    + destruct n as [|k].
      * simpl. unfold UseTypewriter.mount.
        destruct (String.eqb text ""); split; reflexivity.
      * rewrite useTypewriter_typing by (auto; lia). simpl.
        now rewrite Nat.sub_0_r.
Qed.

(** ** components/MessageBubble.jsx: what the markers turn into *)

Section MarkupFacts.
Import JS MessageBubble Markup.




Section Delimiter.
Variable c : ascii.
Variable d before after : string.

Notation D := (String c d).
Notation R := (replace_delimited D before after).



Lemma match_here_lacks (s : string) :
  lacks c s = true -> match_here D s = None.
Proof. intros H. unfold match_here. now rewrite prefix_lacks. Qed.




End Delimiter.


Lemma lacks_replace_newlines (s : string) :
  lacks newline (replace_newlines s) = true.
Proof.
  induction s as [|x s IH]; simpl; [reflexivity|].
  destruct (is_newline x) eqn:E; simpl; [exact IH|].
  unfold is_newline in E. now rewrite E, IH.
Qed.
End MarkupFacts.

Section MarkupStages.
Import JS MessageBubble Markup.




End MarkupStages.







(** X20: what [formatContent] returns never contains a line feed:
    every one of the content has become a [<br />]. *)
Theorem formatContent_has_no_line_feed (content : string) :
  MessageBubble.lacks JS.newline (MessageBubble.formatContent content) = true.
Proof. apply lacks_replace_newlines. Qed.

(** ** components/Sidebar.jsx: renaming and deleting *)

Section SidebarFacts.
Import JS Sidebar.

Lemma api_error_not_empty (detail : option string) (fallback : string) :
  fallback <> "" -> api_error detail fallback <> "".
Proof.
  intros H. unfold api_error. destruct detail; [|exact H].
  now apply or_else_not_empty.
Qed.

End SidebarFacts.

(** X21: [saveEdit] sends at most one rename; the name it sends is the
    edited name trimmed and is never empty, for the knowledge base
    being edited. If the rename succeeds the editing ends and the list
    is refreshed; if it fails the edited name stays in place and an
    error with a message that is not empty is shown; if nothing is
    sent the editing just ends. *)
Theorem saveEdit_sends_a_trimmed_name
        (knowledgeBases : list Sidebar.KnowledgeBase)
        (rename_reply : option string -> string -> Sidebar.ApiReply)
        (st : Sidebar.State) :
  match Sidebar.renames (snd (Sidebar.saveEdit knowledgeBases rename_reply st)) with
  | [] =>
      Sidebar.saveEdit knowledgeBases rename_reply st
      = (Sidebar.initial, Sidebar.no_effects)
  | [(id, new_name)] =>
      id = Sidebar.editingId st
      /\ new_name = JS.trim (Sidebar.editingName st)
      /\ new_name <> ""
      /\ ((fst (Sidebar.saveEdit knowledgeBases rename_reply st) = Sidebar.initial
           /\ Sidebar.invalidations
                (snd (Sidebar.saveEdit knowledgeBases rename_reply st)) = 1
           /\ Sidebar.toasts (snd (Sidebar.saveEdit knowledgeBases rename_reply st))
              = [Sidebar.Success "Knowledge base renamed successfully"])
          \/ (fst (Sidebar.saveEdit knowledgeBases rename_reply st) = st
              /\ Sidebar.invalidations
                   (snd (Sidebar.saveEdit knowledgeBases rename_reply st)) = 0
              /\ exists m,
                  Sidebar.toasts
                    (snd (Sidebar.saveEdit knowledgeBases rename_reply st))
                  = [Sidebar.Error m] /\ m <> ""))
  | _ => False
  end.
Proof.
  unfold Sidebar.saveEdit.
  destruct (String.eqb_spec (JS.trim (Sidebar.editingName st)) "") as [E|N];
    cbn [negb andb]; [reflexivity|].
  destruct (Sidebar.differs _ _); [|reflexivity].
  destruct (rename_reply _ _) as [|detail]; cbn.
  - split; [reflexivity|]. split; [reflexivity|]. split; [exact N|].
    left. repeat split.
  - split; [reflexivity|]. split; [reflexivity|]. split; [exact N|].
    right. split; [reflexivity|]. split; [reflexivity|].
    eexists. split; [reflexivity|].
    now apply or_else_not_empty.
Qed.

(** X22: starting to rename a knowledge base and saving without a
    change sends nothing and ends the editing, when the list holds
    that knowledge base under its id. *)
Theorem saveEdit_without_change_sends_nothing
        (knowledgeBases : list Sidebar.KnowledgeBase)
        (rename_reply : option string -> string -> Sidebar.ApiReply)
        (kb : Sidebar.KnowledgeBase) (st : Sidebar.State) :
  Sidebar.find_kb (Some (Sidebar.kb_id kb)) knowledgeBases = Some kb ->
  Sidebar.saveEdit knowledgeBases rename_reply (Sidebar.startEditing kb st)
  = (Sidebar.initial, Sidebar.no_effects).
Proof.
  intros H. unfold Sidebar.saveEdit, Sidebar.startEditing.
  cbn [Sidebar.editingId Sidebar.editingName]. rewrite H.
  unfold Sidebar.differs. rewrite String.eqb_refl.
  now rewrite andb_false_r.
Qed.

Lemma saveEdit_without_change_sends_nothing_witness :
  Sidebar.find_kb (Some (Sidebar.kb_id Samples.contracts)) [Samples.contracts]
  = Some Samples.contracts
  /\ Sidebar.saveEdit [Samples.contracts] (fun _ _ => Sidebar.Done)
       (Sidebar.startEditing Samples.contracts Sidebar.initial)
     = (Sidebar.initial, Sidebar.no_effects).
Proof.
  assert (H : Sidebar.find_kb (Some (Sidebar.kb_id Samples.contracts))
                [Samples.contracts] = Some Samples.contracts) by reflexivity.
  split; [exact H|].
  exact (saveEdit_without_change_sends_nothing [Samples.contracts]
           (fun _ _ => Sidebar.Done) Samples.contracts Sidebar.initial H).
Defined.



(** ** pages/Dashboard.jsx: the upload *)

Section UploadFacts.
Import JS Api UploadPage.

Lemma last_cons_default {A : Type} (x : A) (l : list A) (d d' : A) :
  last (x :: l) d = last (x :: l) d'.
Proof.
  revert x. induction l as [|y l IH]; intros x; [reflexivity|].
  change (last (x :: y :: l) d) with (last (y :: l) d).
  change (last (x :: y :: l) d') with (last (y :: l) d').
  apply IH.
Qed.

Lemma fold_setUploadProgress (ps : list N) :
  forall st : State,
    fold_left (fun s p => setUploadProgress p s) ps st
    = setUploadProgress (last ps (uploadProgress st)) st.
Proof.
  induction ps as [|p ps IH]; intros st.
  - now destruct st.
  - cbn [fold_left]. rewrite IH. cbn [uploadProgress setUploadProgress].
    destruct ps as [|n ps]; [reflexivity|].
    change (last (p :: n :: ps) (uploadProgress st))
      with (last (n :: ps) (uploadProgress st)).
    now rewrite (last_cons_default n ps p (uploadProgress st)).
Qed.

Lemma after_selections_files (calls : list (list FileDropzone.File)) :
  forall st : State,
    selectedFiles (after_selections calls st) = last calls (selectedFiles st).
Proof.
  unfold after_selections.
  induction calls as [|fs calls IH]; intros st; [reflexivity|].
  cbn [fold_left]. rewrite IH. cbn [handleFilesSelected selectedFiles].
  destruct calls as [|c calls]; [reflexivity|].
  change (last (fs :: c :: calls) (selectedFiles st))
    with (last (c :: calls) (selectedFiles st)).
  apply last_cons_default.
Qed.
End UploadFacts.


(** X25: when the upload fails, the page stays ready for another try:
    the success flag is not set, nothing is refreshed, no timer is
    armed, the selected files are kept, and the error shown has a
    message that is not empty. *)
Theorem handleUpload_failure_can_be_retried
        (TypeError_message : string) (detail : option string)
        (events : list (N * N)) (st : UploadPage.State) :
  UploadPage.selectedFiles st <> [] ->
  UploadPage.uploadSuccess
    (fst (UploadPage.handleUpload TypeError_message
            (Api.UploadFails detail) events st))
  = UploadPage.uploadSuccess st
  /\ UploadPage.selectedFiles
       (fst (UploadPage.handleUpload TypeError_message
               (Api.UploadFails detail) events st))
     = UploadPage.selectedFiles st
  /\ UploadPage.invalidations
       (snd (UploadPage.handleUpload TypeError_message
               (Api.UploadFails detail) events st)) = 0
  /\ UploadPage.timers
       (snd (UploadPage.handleUpload TypeError_message
               (Api.UploadFails detail) events st)) = 0
  /\ exists m,
      UploadPage.toasts
        (snd (UploadPage.handleUpload TypeError_message
                (Api.UploadFails detail) events st))
      = [UploadPage.Error m] /\ m <> "".
Proof.
  intros Hne. unfold UploadPage.handleUpload.
  destruct (UploadPage.selectedFiles st) as [|f fs] eqn:E; [contradiction|].
  rewrite fold_setUploadProgress.
  destruct detail as [d|]; cbn; rewrite ?E;
    (repeat split; eexists; split; [reflexivity|]).
  - apply or_else_not_empty. discriminate.
  - discriminate.
Qed.

Lemma handleUpload_failure_can_be_retried_witness :
  UploadPage.selectedFiles Samples.page_with_files <> []
  /\ UploadPage.uploadSuccess
       (fst (UploadPage.handleUpload "" (Api.UploadFails (Some "Too many files"))
               [(10, 20)%N] Samples.page_with_files))
     = UploadPage.uploadSuccess Samples.page_with_files.
Proof.
  assert (H : UploadPage.selectedFiles Samples.page_with_files <> [])
    by discriminate.
  split; [exact H|].
  exact (proj1 (handleUpload_failure_can_be_retried ""
                  (Some "Too many files") [(10, 20)%N]
                  Samples.page_with_files H)).
Defined.

(** X26: whatever is dragged, dropped, picked, removed and cleared in
    the dropzone, the files the dashboard then uploads have all passed
    [validateFile]: none is of an unsupported type and none is larger
    than 20 MB. *)
Theorem uploaded_files_are_valid
        (TypeError_message : string) (reply : Api.UploadReply)
        (progress : list (N * N)) (events : list Dropzone.Event) :
  Forall (Forall (fun f => FileDropzone.validateFile f = []))
         (UploadPage.uploads
            (snd (UploadPage.handleUpload TypeError_message reply progress
                    (UploadPage.after_selections
                       (snd (Dropzone.run events Dropzone.initial))
                       UploadPage.initial)))).
Proof.
  destruct (run_reports events Dropzone.initial (Forall_nil _)) as [Hv Hl].
  pose proof (after_selections_files
                (snd (Dropzone.run events Dropzone.initial))
                UploadPage.initial) as Hs.
  cbn [UploadPage.initial UploadPage.selectedFiles] in Hs.
  change (FileDropzone.selectedFiles Dropzone.initial) with
    (@nil FileDropzone.File) in Hl.
  rewrite Hl in Hs.
  unfold UploadPage.handleUpload. rewrite Hs.
  destruct (FileDropzone.selectedFiles (fst (Dropzone.run events Dropzone.initial)))
    as [|f fs] eqn:E; [constructor|].
  destruct (Api.uploadFiles reply) as [m|result];
    [|destruct (JS.prop result "message")];
    cbn [snd UploadPage.uploads]; constructor; auto.
Qed.
